(** * PyLNP Tk front end ([tkgui.py]): control binding and synchronisation

    A shallow embedding of the parts of [tkgui.py] that keep widgets in step
    with the launcher object [lnp]: the tooltip helper ([ToolTip],
    [create_tooltip]), the control dictionary [self.controls] with
    [update_displays] and [change_entry], and the two list views
    ([update_autorun_list], [update_hack_list]); and of the commands and
    dialogs around them: [load_params], [update_hack_tooltip],
    [save_keybinds], [set_child_cap], [paint_color_preview], [UpdateWindow],
    [SelectDF] and [InitEditor].

    Python objects that are mutated in place (widgets, the tooltip, the Tk
    timer queue) live in explicit state; a statement that may raise is a
    computation in the monad [Py], which threads that state and stops at the
    first exception, keeping the state reached so far.

    The launcher [lnp] and the toolkit are not part of the module.  Of the
    launcher, the record [PyLNP] keeps what the interface reads, and its
    write request [set_option] is a parameter.  Of Tk, each command is
    modelled by what it does to the widget it is sent to.  Every method runs
    to its end before the next event is handled (one event loop, no
    threads).  [update_displays] is described by what it does to the
    widgets: the write traces that Tk runs when the program edits an entry
    end in [change_entry], which is modelled on its own.

    The module runs under Python 2 and under Python 3 (its imports provide
    for both).  Where the two differ in what the module does (the division
    of whole numbers, the attribute [message] of an exception, the texts
    that [float] accepts), a definition takes the interpreter as an argument
    of class [Python], and a property holds for every interpreter unless it
    says otherwise. *)

From Stdlib Require Import ZArith NArith Ascii String.
From Stdlib Require HexadecimalString DecimalString.
From stdpp Require Import base tactics option list strings functions gmap.

Open Scope string_scope.

(** Text concatenation unfolds under [simpl] when its first argument is known. *)
#[local] Arguments String.append !_ _ / : simpl nomatch.

(* ===================================================================== *)
(** ** Python values and exceptions *)

(** The values that reach a widget: [None], or a text.  Settings of the game
    are kept as text, and [update_displays] concatenates them to a [str]. *)
Inductive value : Type :=
  | PyNone
  | PyStr (s : string).

Inductive exn : Type :=
  | KeyError
  | TypeError
  | TclError
  | AttributeError.

Inductive completion (A : Type) : Type :=
  | Returned (a : A)
  | Raised (e : exn).
Arguments Returned {A} a.
Arguments Raised {A} e.

#[global] Instance value_eq_dec : EqDecision value.
Proof. solve_decision. Defined.
#[global] Instance exn_eq_dec : EqDecision exn.
Proof. solve_decision. Defined.

(** A statement running over a mutable state [S]. *)
Definition Py (S A : Type) : Type := S → S * completion A.

Module PyMonad.

Definition ret {S A} (a : A) : Py S A := λ s, (s, Returned a).

Definition raise {S A} (e : exn) : Py S A := λ s, (s, Raised e).

Definition bind {S A B} (m : Py S A) (k : A → Py S B) : Py S B :=
  λ s, match m s with
       | (s', Returned a) => k a s'
       | (s', Raised e) => (s', Raised e)
       end.

Definition lift {S A} (c : completion A) : Py S A := λ s, (s, c).

(** [try: m  except e: handler] *)
Definition try_except {S A} (m : Py S A) (e : exn) (handler : Py S A)
  : Py S A :=
  λ s, match m s with
       | (s', Raised e') => if decide (e' = e) then handler s'
                            else (s', Raised e')
       | r => r
       end.

Definition get {S} : Py S S := λ s, (s, Returned s).

(** [for x in xs: body x] *)
Fixpoint for_each {S A} (xs : list A) (body : A → Py S unit) : Py S unit :=
  match xs with
  | [] => ret tt
  | x :: xs' => bind (body x) (λ _, for_each xs' body)
  end.

End PyMonad.
Import PyMonad.

Declare Scope py_scope.
Delimit Scope py_scope with py.
Notation "x <- m ;; k" := (bind m (λ x, k))
  (at level 100, m at next level, right associativity) : py_scope.
Notation "m ;; k" := (bind m (λ _, k))
  (at level 100, right associativity) : py_scope.
Open Scope py_scope.

(** [a + b] on Python values: only text concatenates with text. *)
Definition py_add (a b : value) : completion value :=
  match a, b with
  | PyStr x, PyStr y => Returned (PyStr (x ++ y))
  | _, _ => Raised TypeError
  end.

(** [text.split(':')[0]]: the part of [text] before its first colon, the whole
    text when it has none. *)
Fixpoint split_colon_0 (text : string) : string :=
  match text with
  | EmptyString => EmptyString
  | String c rest =>
      if Ascii.eqb c ":"%char then EmptyString else String c (split_colon_0 rest)
  end.

(* ===================================================================== *)
(** ** The interpreter *)

(** The module runs under Python 2 and under Python 3: it imports the
    toolkit under either name.  What depends on the interpreter is kept
    here: which of the two it is (the result of [/] on whole numbers and the
    attribute [message] of an exception differ), and which texts the builtin
    [float] accepts.  The properties below hold for every such pair. *)
Class Python : Type := {
  is_python3 : bool;
  (** [float(s)] returns, rather than raising [ValueError] *)
  float_accepts : string → bool;
}.

(** [validate_number] *)
Definition validate_number {py : Python} (value_if_allowed : string) : bool :=
  if String.eqb value_if_allowed "" then true
  else float_accepts value_if_allowed.

(** *** Two interpreters for the examples *)

Definition is_digit (c : ascii) : bool :=
  (48 <=? nat_of_ascii c)%nat && (nat_of_ascii c <=? 57)%nat.

(** A run of digits; with [underscores], single underscores may stand
    between two digits. *)
Fixpoint digits_from (underscores after_digit : bool) (s : string) : bool :=
  match s with
  | EmptyString => after_digit
  | String c rest =>
      if is_digit c then digits_from underscores true rest
      else if underscores && Ascii.eqb c "_"%char && after_digit
           then digits_from underscores false rest
           else false
  end.

Definition digitpart (underscores : bool) (s : string) : bool :=
  digits_from underscores false s.

(** The text before the first character that [p] holds of, and the text
    after that character when there is one. *)
Fixpoint cut_at (p : ascii → bool) (s : string) : string * option string :=
  match s with
  | EmptyString => (EmptyString, None)
  | String c rest =>
      if p c then (EmptyString, Some rest)
      else let '(before, after) := cut_at p rest in (String c before, after)
  end.

Fixpoint drop_blanks (s : string) : string :=
  match s with
  | String c rest => if Ascii.is_space c then drop_blanks rest else s
  | EmptyString => EmptyString
  end.

Definition strip (s : string) : string :=
  String.rev (drop_blanks (String.rev (drop_blanks s))).

Definition drop_sign (s : string) : string :=
  match s with
  | String c rest =>
      if Ascii.eqb c "+"%char || Ascii.eqb c "-"%char then rest else s
  | EmptyString => EmptyString
  end.

Definition lower (c : ascii) : ascii :=
  if (65 <=? nat_of_ascii c)%nat && (nat_of_ascii c <=? 90)%nat
  then ascii_of_nat (nat_of_ascii c + 32) else c.

Fixpoint lower_case (s : string) : string :=
  match s with
  | EmptyString => EmptyString
  | String c rest => String (lower c) (lower_case rest)
  end.

(** The texts that [float] accepts by the language reference: blanks around
    it, a sign, and then [inf], [infinity] or [nan] in any case, or a
    decimal numeral with an optional exponent; Python 3 allows underscores
    between its digits. *)
Definition float_syntax (underscores : bool) (s : string) : bool :=
  let s := drop_sign (strip s) in
  let name := lower_case s in
  if String.eqb name "inf" || String.eqb name "infinity" || String.eqb name "nan"
  then true
  else
    let '(mantissa, exponent) :=
      cut_at (λ c, Ascii.eqb c "e"%char || Ascii.eqb c "E"%char) s in
    let '(whole, fraction) := cut_at (λ c, Ascii.eqb c "."%char) mantissa in
    match fraction with
    | None => digitpart underscores whole
    | Some f =>
        if String.eqb whole "" then digitpart underscores f
        else digitpart underscores whole &&
             (String.eqb f "" || digitpart underscores f)
    end &&
    match exponent with
    | None => true
    | Some e => digitpart underscores (drop_sign e)
    end.

Definition example_python2 : Python :=
  {| is_python3 := false; float_accepts := float_syntax false |}.

Definition example_python3 : Python :=
  {| is_python3 := true; float_accepts := float_syntax true |}.

(* ===================================================================== *)
(** ** The launcher object, as far as the interface reads it *)

(** One DFHack entry of [lnp.get_hacks()]: a dictionary; [h['enabled']] raises
    [KeyError] when the entry is absent, and is tested for truth otherwise. *)
Record hack : Type := {
  hack_enabled : option bool;
  hack_tooltip : option string;
}.

Record PyLNP : Type := {
  (** [lnp.settings]: attribute access by name; a name that is not a setting
      raises [KeyError], the exception [update_displays] catches. *)
  settings : gmap string value;
  (** [lnp.autorun]: the utilities launched together with the game. *)
  autorun : list string;
  (** [lnp.config["hideUtilityPath"]] *)
  hideUtilityPath : bool;
  (** [lnp.get_hacks().items()], in the dictionary's iteration order. *)
  get_hacks : list (string * hack);
  (** [lnp.userconfig.get_bool('autoClose')] *)
  userconfig_autoClose : bool;
  (** [lnp.current_pack()] *)
  current_pack : string;
}.

Definition getattr_settings (lnp : PyLNP) (key : string) : completion value :=
  match settings lnp !! key with
  | Some v => Returned v
  | None => Raised KeyError
  end.

(* ===================================================================== *)
(** ** Widgets *)

(** A widget is known by its Tk path, here a number; the widgets themselves
    are kept in a store, so that two references to one widget see the same
    object.  A path that is not in the store is a widget that was destroyed:
    Tk rejects every command on it. *)
Abbreviation wid := nat.

Inductive widget : Type :=
  | Entry (content : string)
  | Button (text : string)
  | Label (text : string).

#[global] Instance widget_eq_dec : EqDecision widget.
Proof. solve_decision. Defined.

Abbreviation widgets := (gmap nat widget).

(** What the user reads on a widget. *)
Definition display (w : widget) : string :=
  match w with Entry s | Button s | Label s => s end.

(** [isinstance(control, Entry)] *)
Definition is_Entry (w : widget) : bool :=
  match w with Entry _ => true | _ => false end.

(** Every entry of the interface is a themed entry made with
    [validate='key'] and [validatecommand=self.vcmd], which is
    [validate_number] called on [%P], the text the entry would hold after
    the edit.  Tk asks it before each insertion and deletion, also those the
    program makes, and drops an edit that it refuses, without an error.
    [entry_edit old new] is the text after an edit from [old] to [new]. *)
Definition entry_edit {py : Python} (old new : string) : string :=
  if validate_number new then new else old.

(** [control.delete(0, END)] *)
Definition entry_delete_all {py : Python} (c : wid) : Py widgets unit :=
  λ st, match st !! c with
        | Some (Entry old) =>
            (<[c := Entry (entry_edit old "")]> st, Returned tt)
        | _ => (st, Raised TclError)
        end.

(** [control.insert(0, value)].  Tkinter ends the argument list of a Tk call
    at the first [None], so that inserting [None] is a malformed [insert]
    command, which Tk rejects. *)
Definition entry_insert_0 {py : Python} (c : wid) (v : value)
  : Py widgets unit :=
  λ st, match st !! c, v with
        | Some (Entry old), PyStr s =>
            (<[c := Entry (entry_edit old (s ++ old))]> st, Returned tt)
        | _, _ => (st, Raised TclError)
        end.

(** [control["text"]] *)
Definition cget_text (c : wid) : Py widgets string :=
  λ st, match st !! c with
        | Some (Button t) | Some (Label t) => (st, Returned t)
        | _ => (st, Raised TclError)
        end.

(** [control["text"] = v] *)
Definition configure_text (c : wid) (v : value) : Py widgets unit :=
  λ st, match st !! c, v with
        | Some (Button _), PyStr s => (<[c := Button s]> st, Returned tt)
        | Some (Label _), PyStr s => (<[c := Label s]> st, Returned tt)
        | _, _ => (st, Raised TclError)
        end.

(* ===================================================================== *)
(** ** The control dictionary *)

(** An entry of [self.controls]: a control, or a [(control, func)] tuple whose
    function computes the text to show.  The functions of the source are
    closures over [self.lnp], read when they are called.  The test
    [hasattr(self.controls[key], '__iter__')] of [update_displays] tells the
    two shapes apart: it is a [match] on the constructor here. *)
Inductive binding : Type :=
  | Plain (control : wid)
  | Custom (control : wid) (func : PyLNP → value → value).

Definition target (b : binding) : wid :=
  match b with Plain c | Custom c _ => c end.

(** A Python [dict] with text keys, as the list of its items in the order a
    loop visits them: the order of insertion for Python 3.7 and later, some
    fixed order for the interpreters before.  The properties of a refresh
    below hold for every order. *)
Definition dict (V : Type) : Type := list (string * V).

Definition keys {V} (d : dict V) : list string := d.*1.

(** [d[key]] *)
Fixpoint dict_get {V} (d : dict V) (key : string) : option V :=
  match d with
  | [] => None
  | (k, v) :: d' => if String.eqb k key then Some v else dict_get d' key
  end.

(** [d[key] = v]: replaces the value of a key that is present, adds the key
    at the end otherwise. *)
Fixpoint dict_set {V} (d : dict V) (key : string) (v : V) : dict V :=
  match d with
  | [] => [(key, v)]
  | (k, v') :: d' =>
      if String.eqb k key then (k, v) :: d' else (k, v') :: dict_set d' key v
  end.

Definition getitem {S V} (d : dict V) (key : string) : Py S V :=
  match dict_get d key with
  | Some v => ret v
  | None => raise KeyError
  end.

(** The body of the loop of [update_displays], for one key.  The control is
    an object: [isinstance] needs no Tk command, so it is answered by the
    widget's class; a destroyed widget fails at its first Tk command. *)
Definition update_display {py : Python} (lnp : PyLNP)
    (controls : dict binding) (key : string) : Py widgets unit :=
  value <- try_except (lift (getattr_settings lnp key)) KeyError (ret PyNone) ;;
  b <- getitem controls key ;;
  let control := target b in
  let value := match b with
               | Custom _ func => func lnp value
               | Plain _ => value
               end in
  st <- get ;;
  match st !! control with
  | None => raise TclError
  | Some w =>
      if is_Entry w then
        entry_delete_all control ;;
        entry_insert_0 control value
      else
        text <- cget_text control ;;
        new <- lift (py_add (PyStr (split_colon_0 text ++ ": ")) value) ;;
        configure_text control new
  end.

(** [TkGui.update_displays] *)
Definition update_displays {py : Python} (lnp : PyLNP)
    (controls : dict binding) : Py widgets unit :=
  for_each (keys controls) (update_display lnp controls).

(** [self.controls[key] = b], the statement that fills the dictionary while
    the interface is built. *)
Definition register (controls : dict binding) (key : string) (b : binding)
  : completion (dict binding) :=
  Returned (dict_set controls key b).

(* ===================================================================== *)
(** ** Committing an edited entry *)

Section ChangeEntry.

(** [lnp.set_option(key, value)]: the write request of the launcher, which
    is not part of this module. *)
Variable set_option : string → string → Py PyLNP unit.

(** [TkGui.change_entry]; [var] is the text [var.get()] of the variable
    bound to the entry. *)
Definition change_entry (key : string) (var : string) : Py PyLNP unit :=
  if negb (String.eqb var "") then set_option key var else ret tt.

End ChangeEntry.

(* ===================================================================== *)
(** ** Tooltips *)

(** The part of Tk a tooltip talks to. *)
Record Tk : Type := {
  (** [after] timers that run [showtip] of this tooltip and were neither run
      nor cancelled yet: identifier and delay in milliseconds. *)
  after_queue : list (nat * Z);
  (** identifiers handed out by [after] so far *)
  after_count : nat;
  (** [winfo_pointerx()], [winfo_pointery()] *)
  pointerx : Z;
  pointery : Z;
  (** [Toplevel] windows created so far, and those destroyed *)
  toplevel_count : nat;
  destroyed : list nat;
}.

(** The [Toplevel] of a shown tooltip with its position ([wm_geometry]) and
    the text of its label. *)
Record Toplevel : Type := {
  tw_id : nat;
  tw_x : Z;
  tw_y : Z;
  tw_text : string;
}.

(** The fields of a [ToolTip] object that its methods use ([widget] is the
    owner of the Tk state below; [id], [x] and [y] are never read). *)
Record ToolTip : Type := {
  tipwindow : option Toplevel;
  event : option nat;
  text : string;
  active : bool;
}.

Record hover : Type := {
  tk : Tk;
  tooltip : ToolTip;
}.

Definition _TOOLTIP_DELAY : Z := 500.

Module ToolTipM.

(** [ToolTip.__init__] *)
Definition init (text : string) : ToolTip :=
  {| tipwindow := None; event := None; text := text; active := false |}.

(** [ToolTip.showtip].  The Tk call for OS X inside it either succeeds or
    has its [TclError] swallowed; it does not change the fields below. *)
Definition showtip (s : hover) : hover :=
  let t := tooltip s in
  let t := {| tipwindow := tipwindow t; event := event t; text := text t;
              active := true |} in
  if bool_decide (is_Some (tipwindow t)) || String.eqb (text t) "" then
    {| tk := tk s; tooltip := t |}
  else
    let x := (pointerx (tk s) + 16)%Z in
    let y := (pointery (tk s) + 16)%Z in
    let tw := {| tw_id := toplevel_count (tk s); tw_x := x; tw_y := y;
                 tw_text := text t |} in
    {| tk := {| after_queue := after_queue (tk s);
                after_count := after_count (tk s);
                pointerx := pointerx (tk s);
                pointery := pointery (tk s);
                toplevel_count := S (toplevel_count (tk s));
                destroyed := destroyed (tk s) |};
       tooltip := {| tipwindow := Some tw; event := event t;
                     text := text t; active := true |} |}.

(** [ToolTip.hidetip] *)
Definition hidetip (s : hover) : hover :=
  let t := tooltip s in
  let tw := tipwindow t in
  let t := {| tipwindow := None; event := event t; text := text t;
              active := false |} in
  match tw with
  | Some w =>
      {| tk := {| after_queue := after_queue (tk s);
                  after_count := after_count (tk s);
                  pointerx := pointerx (tk s);
                  pointery := pointery (tk s);
                  toplevel_count := toplevel_count (tk s);
                  destroyed := tw_id w :: destroyed (tk s) |};
         tooltip := t |}
  | None => {| tk := tk s; tooltip := t |}
  end.

(** [ToolTip.settext] *)
Definition settext (new_text : string) (s : hover) : hover :=
  if String.eqb new_text (text (tooltip s)) then s
  else
    let t := tooltip s in
    let s := {| tk := tk s;
                tooltip := {| tipwindow := tipwindow t; event := event t;
                              text := new_text; active := active t |} |} in
    if active (tooltip s) then showtip (hidetip s) else s.

End ToolTipM.

(** [widget.after(ms, callback)]: queues the timer, returns its identifier. *)
Definition after (ms : Z) (k : Tk) : Tk * nat :=
  ({| after_queue := after_queue k ++ [(after_count k, ms)];
      after_count := S (after_count k);
      pointerx := pointerx k; pointery := pointery k;
      toplevel_count := toplevel_count k; destroyed := destroyed k |},
   after_count k).

(** [widget.after_cancel(id)]: a timer that already ran is not in the queue,
    and cancelling it changes nothing. *)
Definition after_cancel (id : nat) (k : Tk) : Tk :=
  {| after_queue := filter (λ e, e.1 ≠ id) (after_queue k);
     after_count := after_count k;
     pointerx := pointerx k; pointery := pointery k;
     toplevel_count := toplevel_count k; destroyed := destroyed k |}.

Definition set_event (e : option nat) (t : ToolTip) : ToolTip :=
  {| tipwindow := tipwindow t; event := e; text := text t;
     active := active t |}.

(** [create_tooltip]: a fresh tooltip; none of its timers is queued. *)
Definition create_tooltip (k : Tk) (text : string) : hover :=
  {| tk := {| after_queue := []; after_count := after_count k;
              pointerx := pointerx k; pointery := pointery k;
              toplevel_count := toplevel_count k;
              destroyed := destroyed k |};
     tooltip := ToolTipM.init text |}.

(** The handler [enter] of [create_tooltip], bound to [<Enter>].  An
    identifier returned by [after] is a non-empty text, hence true. *)
Definition enter (s : hover) : hover :=
  let k := match event (tooltip s) with
           | Some e => after_cancel e (tk s)
           | None => tk s
           end in
  let '(k, id) := after _TOOLTIP_DELAY k in
  {| tk := k; tooltip := set_event (Some id) (tooltip s) |}.

(** The handler [leave] of [create_tooltip], bound to [<Leave>]. *)
Definition leave (s : hover) : hover :=
  let s := match event (tooltip s) with
           | Some e => {| tk := after_cancel e (tk s);
                          tooltip := set_event None (tooltip s) |}
           | None => s
           end in
  ToolTipM.hidetip s.

(** What can happen to a tooltip: the pointer enters or leaves the widget, a
    queued timer comes due, the pointer moves, the program sets a text. *)
Inductive tip_event : Type :=
  | PointerEnter
  | PointerLeave
  | TimerDue (id : nat)
  | PointerMotion (x y : Z)
  | SetText (new_text : string).

(** Tk runs a timer that is due: it leaves the queue and its callback,
    [tooltip.showtip], is called.  A timer that was cancelled does not run. *)
Definition timer_due (id : nat) (s : hover) : hover :=
  if bool_decide (id ∈ (after_queue (tk s)).*1) then
    ToolTipM.showtip {| tk := after_cancel id (tk s); tooltip := tooltip s |}
  else s.

Definition pointer_motion (x y : Z) (s : hover) : hover :=
  {| tk := {| after_queue := after_queue (tk s);
              after_count := after_count (tk s);
              pointerx := x; pointery := y;
              toplevel_count := toplevel_count (tk s);
              destroyed := destroyed (tk s) |};
     tooltip := tooltip s |}.

Definition tip_step (s : hover) (e : tip_event) : hover :=
  match e with
  | PointerEnter => enter s
  | PointerLeave => leave s
  | TimerDue id => timer_due id s
  | PointerMotion x y => pointer_motion x y s
  | SetText new_text => ToolTipM.settext new_text s
  end.

Definition tip_run (s : hover) (es : list tip_event) : hover :=
  fold_left tip_step es s.

(** The tooltip is on screen. *)
Definition shown (s : hover) : Prop :=
  active (tooltip s) = true ∧ is_Some (tipwindow (tooltip s)).

Definition anchor (s : hover) : option (Z * Z) :=
  (λ w, (tw_x w, tw_y w)) <$> tipwindow (tooltip s).

(* ===================================================================== *)
(** ** Path names *)

(** The functions of [os.path] that [update_autorun_list] calls; they belong
    to the platform, not to this module. *)
Record os_path : Type := {
  basename : string → string;
  dirname : string → string;
  join : string → string → string;
  splitext : string → string * string;
}.

(** [s.rpartition(sep)], as [Some (before, sep + after)], [None] when [sep]
    does not occur in [s]. *)
Fixpoint rsplit (sep : ascii) (s : string) : option (string * string) :=
  match s with
  | EmptyString => None
  | String c r =>
      match rsplit sep r with
      | Some (pre, post) => Some (String c pre, post)
      | None => if Ascii.eqb c sep then Some (EmptyString, s) else None
      end
  end.

Fixpoint all_chars (c : ascii) (s : string) : bool :=
  match s with
  | EmptyString => true
  | String d r => Ascii.eqb d c && all_chars c r
  end.

(** [s.rstrip('/')] *)
Fixpoint rstrip_slash (s : string) : string :=
  match s with
  | EmptyString => EmptyString
  | String c r =>
      match rstrip_slash r with
      | EmptyString => if Ascii.eqb c "/"%char then EmptyString
                       else String c EmptyString
      | r' => String c r'
      end
  end.

Definition string_tail (s : string) : string :=
  match s with EmptyString => EmptyString | String _ r => r end.

(** [posixpath.split]: the text up to and with the last slash, and the rest. *)
Definition posix_cut (p : string) : string * string :=
  match rsplit "/"%char p with
  | Some (pre, post) => (pre ++ "/", string_tail post)
  | None => ("", p)
  end.

Definition posix_basename (p : string) : string := (posix_cut p).2.

Definition posix_dirname (p : string) : string :=
  let head := (posix_cut p).1 in
  if negb (String.eqb head "") && negb (all_chars "/"%char head)
  then rstrip_slash head else head.

(** [s.endswith(c)] *)
Fixpoint ends_with (c : ascii) (s : string) : bool :=
  match s with
  | EmptyString => false
  | String d EmptyString => Ascii.eqb d c
  | String _ r => ends_with c r
  end.

Definition posix_join (a b : string) : string :=
  if String.prefix "/" b then b
  else if String.eqb a "" || ends_with "/"%char a then a ++ b
       else a ++ "/" ++ b.

(** [posixpath.splitext]: the extension starts at the last dot of the last
    component, unless only dots come before it there. *)
Definition posix_splitext (p : string) : string * string :=
  let '(head, name) := posix_cut p in
  match rsplit "."%char name with
  | Some (pre, ext) =>
      if all_chars "."%char pre then (p, "") else (head ++ pre, ext)
  | None => (p, "")
  end.

Definition posixpath : os_path :=
  {| basename := posix_basename; dirname := posix_dirname;
     join := posix_join; splitext := posix_splitext |}.

(* ===================================================================== *)
(** ** List views *)

(** A row of a [Treeview]: its [text] and its two column [values]. *)
Record item : Type := {
  item_text : string;
  item_values : string * string;
}.

(** A [Treeview] with rows at the top level only: the rows in display order,
    each under the identifier Tk gave it, and the number of identifiers used
    so far. *)
Record Treeview : Type := {
  tree_children : list (nat * item);
  tree_count : nat;
}.

(** [tree.get_children()] *)
Definition get_children : Py Treeview (list nat) :=
  λ tv, (tv, Returned (tree_children tv).*1).

(** [tree.delete(i)]; Tk rejects an identifier that names no row. *)
Definition tree_delete (i : nat) : Py Treeview unit :=
  λ tv, if bool_decide (i ∈ (tree_children tv).*1)
        then ({| tree_children := filter (λ r, r.1 ≠ i) (tree_children tv);
                 tree_count := tree_count tv |}, Returned tt)
        else (tv, Raised TclError).

(** [tree.insert('', 'end', text=text, values=values)] *)
Definition tree_insert_end (text : string) (values : string * string)
  : Py Treeview unit :=
  λ tv, ({| tree_children :=
              tree_children tv ++
              [(tree_count tv, {| item_text := text; item_values := values |})];
            tree_count := S (tree_count tv) |}, Returned tt).

(** The rows on screen, top to bottom. *)
Definition rows (tv : Treeview) : list item := (tree_children tv).*2.

(** Identifiers are given once, and counted. *)
Definition tree_ok (tv : Treeview) : Prop :=
  NoDup (tree_children tv).*1 ∧
  Forall (λ i, i < tree_count tv)%nat (tree_children tv).*1.

#[global] Instance tree_ok_dec tv : Decision (tree_ok tv).
Proof. unfold tree_ok. apply _. Defined.

(** [h['enabled']] *)
Definition hack_getitem_enabled (h : hack) : completion bool :=
  match hack_enabled h with
  | Some b => Returned b
  | None => Raised KeyError
  end.

Section Lists.

Variable path : os_path.

(** The label and status columns of one utility. *)
Definition autorun_row (lnp : PyLNP) (p : string) : item :=
  let exe := join path (basename path (dirname path p)) (basename path p) in
  let exe := if hideUtilityPath lnp
             then (splitext path (basename path p)).1 else exe in
  {| item_text := p;
     item_values :=
       (exe, if bool_decide (p ∈ autorun lnp) then "Yes" else "No") |}.

(** [TkGui.update_autorun_list], on [self.proglist]. *)
Definition update_autorun_list (lnp : PyLNP) (progs : list string)
  : Py Treeview unit :=
  children <- get_children ;;
  for_each children tree_delete ;;
  for_each progs (λ p,
    let exe :=
      join path (basename path (dirname path p)) (basename path p) in
    let exe := if hideUtilityPath lnp
               then (splitext path (basename path p)).1 else exe in
    tree_insert_end p
      (exe, if bool_decide (p ∈ autorun lnp) then "Yes" else "No")).

End Lists.

Definition hack_row (k : string) (enabled : bool) : item :=
  {| item_text := k;
     item_values := (k, if enabled then "Yes" else "No") |}.

(** [TkGui.update_hack_list], on [self.hacklist]. *)
Definition update_hack_list (lnp : PyLNP) : Py Treeview unit :=
  children <- get_children ;;
  for_each children tree_delete ;;
  for_each (get_hacks lnp) (λ kh,
    enabled <- lift (hack_getitem_enabled kh.2) ;;
    tree_insert_end kh.1 (kh.1, if enabled then "Yes" else "No")).

(* ===================================================================== *)
(** ** Derived descriptions used in the statements *)

(** The value [update_displays] hands to the control of [key]: the setting, or
    [None] when [lnp.settings] has no such attribute, passed through the
    function of a [(control, func)] tuple. *)
Definition shown_value (lnp : PyLNP) (key : string) (b : binding) : value :=
  let raw := default PyNone (settings lnp !! key) in
  match b with
  | Custom _ func => func lnp raw
  | Plain _ => raw
  end.

(** What a widget shows once a text [s] was written to it: an entry holds
    [s] when its validation accepts [s], and is left empty when not. *)
Definition written {py : Python} (w : widget) (s : string) : widget :=
  match w with
  | Entry _ => Entry (if validate_number s then s else "")
  | Button t => Button (split_colon_0 t ++ ": " ++ s)
  | Label t => Label (split_colon_0 t ++ ": " ++ s)
  end.

(** The effect of one round of the loop on its control. *)
Definition render {py : Python} (w : widget) (v : value)
  : widget * completion unit :=
  match v with
  | PyStr s => (written w s, Returned tt)
  | PyNone =>
      match w with
      | Entry _ => (Entry "", Raised TclError)
      | _ => (w, Raised TypeError)
      end
  end.

(** What no refresh changes in a widget: its class and, for a button or a
    label, the caption before the first colon. *)
Definition caption (w : widget) : widget :=
  match w with
  | Entry _ => Entry ""
  | Button t => Button (split_colon_0 t)
  | Label t => Label (split_colon_0 t)
  end.

(** No other key of the dictionary is bound to control [c]. *)
Definition drives_alone (controls : dict binding) (key : string) (c : wid)
  : Prop :=
  Forall (λ kb : string * binding, target kb.2 = c → kb.1 = key) controls.

(** Two stores hold the same widgets, up to what a refresh rewrites. *)
Definition same_captions (st st' : gmap nat widget) : Prop :=
  ∀ c, caption <$> st !! c = caption <$> st' !! c.

#[global] Instance drives_alone_dec controls key c :
  Decision (drives_alone controls key c).
Proof. unfold drives_alone. apply _. Defined.

(* ===================================================================== *)
(** ** The controls of the interface *)

(** [lambda x: self.lnp.current_pack()], the function of key [FONT]. *)
Definition FONT_func : PyLNP → value → value :=
  λ lnp x, PyStr (current_pack lnp).

(** [lambda v: ('NO', 'YES')[self.lnp.userconfig.get_bool('autoClose')]] *)
Definition autoClose_func : PyLNP → value → value :=
  λ lnp v, PyStr (if userconfig_autoClose lnp then "YES" else "NO").

(** The assignments [self.controls[key] = ...] of [create_options],
    [create_graphics] and [create_advanced], in the order they run; the
    widgets are numbered in that order. *)
Definition tkgui_assignments : list (string * binding) :=
  [ ("popcap", Plain 0); ("invaders", Plain 1); ("childcap", Plain 2);
    ("caveins", Plain 3); ("temperature", Plain 4); ("liquidDepth", Plain 5);
    ("weather", Plain 6); ("variedGround", Plain 7); ("laborLists", Plain 8);
    ("aquifers", Plain 9);
    ("FONT", Custom 10 FONT_func); ("truetype", Plain 11);
    ("sound", Plain 12); ("volume", Plain 13); ("fpsCounter", Plain 14);
    ("fpsCap", Plain 15); ("gpsCap", Plain 16); ("introMovie", Plain 17);
    ("startWindowed", Plain 18); ("autoSave", Plain 19);
    ("initialSave", Plain 20); ("autoSavePause", Plain 21);
    ("pauseOnLoad", Plain 22); ("autoBackup", Plain 23);
    ("compressSaves", Plain 24); ("procPriority", Plain 25);
    ("autoClose", Custom 26 autoClose_func) ].

Definition tkgui_controls : dict binding :=
  foldl (λ d kb, dict_set d kb.1 kb.2) [] tkgui_assignments.

(** The widgets as they are created. *)
Definition tkgui_widgets : gmap nat widget :=
  list_to_map
    [ (0, Button "Population Cap"); (1, Button "Invaders");
      (2, Button "Child Cap"); (3, Button "Cave-ins");
      (4, Button "Temperature"); (5, Button "Liquid Depth");
      (6, Button "Weather"); (7, Button "Varied Ground");
      (8, Button "Starting Labors"); (9, Button "Aquifers");
      (10, Label "Current Graphics"); (11, Button "TrueType Fonts");
      (12, Button "Sound"); (13, Entry ""); (14, Button "FPS Counter");
      (15, Entry ""); (16, Entry ""); (17, Button "Intro Movie");
      (18, Button "Windowed"); (19, Button "Autosave");
      (20, Button "Initial Save"); (21, Button "Pause on Save");
      (22, Button "Pause on Load"); (23, Button "Backup Saves");
      (24, Button "Compress Saves"); (25, Button "Processor Priority");
      (26, Button "Close GUI on launch") ].

(** A launcher state for the examples: every game setting has a text;
    [autoClose] is no game setting, it belongs to [lnp.userconfig]. *)
Definition example_lnp : PyLNP :=
  {| settings :=
       list_to_map
         [ ("popcap", PyStr "200"); ("invaders", PyStr "YES");
           ("childcap", PyStr "100:1000"); ("caveins", PyStr "YES");
           ("temperature", PyStr "YES"); ("liquidDepth", PyStr "NO");
           ("weather", PyStr "YES"); ("variedGround", PyStr "YES");
           ("laborLists", PyStr "SKILLS"); ("aquifers", PyStr "NO");
           ("FONT", PyStr "curses_640x300.png"); ("truetype", PyStr "YES");
           ("sound", PyStr "YES"); ("volume", PyStr "255");
           ("fpsCounter", PyStr "NO"); ("fpsCap", PyStr "100");
           ("gpsCap", PyStr "50"); ("introMovie", PyStr "YES");
           ("startWindowed", PyStr "YES"); ("autoSave", PyStr "NONE");
           ("initialSave", PyStr "NO"); ("autoSavePause", PyStr "NO");
           ("pauseOnLoad", PyStr "YES"); ("autoBackup", PyStr "NO");
           ("compressSaves", PyStr "YES"); ("procPriority", PyStr "NORMAL") ];
     autorun := ["dwarftherapist/DwarfTherapist.exe"];
     hideUtilityPath := false;
     get_hacks :=
       [ ("Partial Mouse Control",
          {| hack_enabled := Some true;
             hack_tooltip := Some "Allows mouse use" |});
         ("Performance Tweaks",
          {| hack_enabled := Some false;
             hack_tooltip := Some "Various tweaks" |}) ];
     userconfig_autoClose := true;
     current_pack := "Phoebus" |}.

(** The same launcher, with frame rates that are no plain numbers. *)
Definition example_lnp_odd_caps : PyLNP :=
  {| settings :=
       <["fpsCap" := PyStr "1_000"]>
         (<["gpsCap" := PyStr "MAX"]> (settings example_lnp));
     autorun := autorun example_lnp;
     hideUtilityPath := hideUtilityPath example_lnp;
     get_hacks := get_hacks example_lnp;
     userconfig_autoClose := userconfig_autoClose example_lnp;
     current_pack := current_pack example_lnp |}.

(** The widgets of the interface after the user has typed into the
    entries. *)
Definition tkgui_widgets_typed : gmap nat widget :=
  <[13 := Entry "80"]> (<[15 := Entry "60"]> (<[16 := Entry "30"]>
    tkgui_widgets)).

(** The same launcher, where the game settings have no [popcap]. *)
Definition example_lnp_without_popcap : PyLNP :=
  {| settings := delete "popcap" (settings example_lnp);
     autorun := autorun example_lnp;
     hideUtilityPath := hideUtilityPath example_lnp;
     get_hacks := get_hacks example_lnp;
     userconfig_autoClose := userconfig_autoClose example_lnp;
     current_pack := current_pack example_lnp |}.

(** ** The statements of the specification that the code does not meet *)

(** "A binding with no projection function displays the raw value verbatim,
    with nothing prepended or appended." *)
Definition plain_shows_raw_value : Prop :=
  ∀ (py : Python) lnp controls (st st' : gmap nat widget) key c s,
    NoDup (keys controls) →
    dict_get controls key = Some (Plain c) →
    drives_alone controls key c →
    settings lnp !! key = Some (PyStr s) →
    update_displays lnp controls st = (st', Returned tt) →
    display <$> st' !! c = Some s.

(** "After a refresh the displayed value equals [projection(getValue(key))]." *)
Definition custom_shows_func_value : Prop :=
  ∀ (py : Python) lnp controls (st st' : gmap nat widget) key c func raw s,
    NoDup (keys controls) →
    dict_get controls key = Some (Custom c func) →
    drives_alone controls key c →
    settings lnp !! key = Some raw →
    func lnp raw = PyStr s →
    update_displays lnp controls st = (st', Returned tt) →
    display <$> st' !! c = Some s.

(** "Registering a key that is already registered fails." *)
Definition register_rejects_duplicates : Prop :=
  ∀ controls key b,
    is_Some (dict_get controls key) →
    ∃ e, register controls key b = Raised e.

(** "Setting a text that differs while the tooltip is shown destroys it and
    recreates it at once, at the same anchor point as before." *)
Definition settext_redraws_in_place : Prop :=
  ∀ k text0 es new_text,
    let s := tip_run (create_tooltip k text0) es in
    shown s →
    new_text ≠ text (tooltip s) →
    shown (ToolTipM.settext new_text s) ∧
    anchor (ToolTipM.settext new_text s) = anchor s.

(** The timers of a tooltip: none, or the one its field [event] names. *)
Definition timers_ok (s : hover) : Prop :=
  match after_queue (tk s) with
  | [] => True
  | [(id, _)] => event (tooltip s) = Some id
  | _ => False
  end.

(** A Tk state for the examples: nothing scheduled, pointer at (10, 20). *)
Definition example_tk : Tk :=
  {| after_queue := []; after_count := 0; pointerx := 10; pointery := 20;
     toplevel_count := 0; destroyed := [] |}.

(** The tooltip of the hack list, shown for one row; the pointer then moves
    on to another row. *)
Definition hack_tooltip_shown : hover :=
  tip_run (create_tooltip example_tk "")
    [PointerEnter; SetText "Allows mouse use"; TimerDue 0;
     PointerMotion 50 60].

(** The row of one hack, when its dictionary has the entry [enabled]. *)
Definition hack_row_of (kh : string * hack) : option item :=
  hack_row kh.1 <$> hack_enabled kh.2.

(** "An item whose status lookup raises still gets a row, with the status
    unknown, and every other item gets its row." *)
Definition hack_list_isolates_failures : Prop :=
  ∀ lnp hacklist,
    tree_ok hacklist →
    ∃ hacklist',
      update_hack_list lnp hacklist = (hacklist', Returned tt) ∧
      Forall2 (λ (kh : string * hack) r,
                 item_text r = kh.1 ∧
                 (item_values r).2 =
                   match hack_enabled kh.2 with
                   | Some true => "Yes"
                   | Some false => "No"
                   | None => "unknown"
                   end)
              (get_hacks lnp) (rows hacklist').


(** A list view with two rows of an earlier refresh. *)
Definition example_tree : Treeview :=
  {| tree_children :=
       [ (0, {| item_text := "old/a.exe"; item_values := ("a.exe", "No") |});
         (1, {| item_text := "old/b.exe"; item_values := ("b.exe", "Yes") |}) ];
     tree_count := 2 |}.

(** The launcher of the examples, with a hack that has no [enabled] entry
    between the two others. *)
Definition example_lnp_broken_hack : PyLNP :=
  {| settings := settings example_lnp;
     autorun := autorun example_lnp;
     hideUtilityPath := hideUtilityPath example_lnp;
     get_hacks :=
       [ ("Partial Mouse Control",
          {| hack_enabled := Some true;
             hack_tooltip := Some "Allows mouse use" |});
         ("Broken", {| hack_enabled := None; hack_tooltip := None |});
         ("Performance Tweaks",
          {| hack_enabled := Some false;
             hack_tooltip := Some "Various tweaks" |}) ];
     userconfig_autoClose := userconfig_autoClose example_lnp;
     current_pack := current_pack example_lnp |}.

(* ===================================================================== *)
(** ** Reading the configuration anew *)

(** The main window, as far as [load_params] uses it: the launcher, the
    widgets that exist, and the error boxes shown so far. *)
Record TkGui : Type := {
  self_lnp : PyLNP;
  self_widgets : gmap nat widget;
  self_errors : list string;
}.

(** [TkGui.exit_program]: [self.root.destroy()] destroys the root window and
    every widget in it. *)
Definition exit_program (self : TkGui) : TkGui :=
  {| self_lnp := self_lnp self; self_widgets := ∅;
     self_errors := self_errors self |}.

(** [messagebox.showerror(self.root.title(), message)] *)
Definition showerror (message : string) (self : TkGui) : TkGui :=
  {| self_lnp := self_lnp self; self_widgets := self_widgets self;
     self_errors := self_errors self ++ [message] |}.

Section LoadParams.

Context {py : Python}.

(** [lnp.load_params()]: the launcher as the call leaves it, and, when it
    raises an [IOError], the text that Python 2 keeps in the attribute
    [message] of the exception. *)
Variable lnp_load_params : PyLNP → PyLNP * option string.

(** [TkGui.load_params].  An exception of Python 3 has no attribute
    [message]: there the handler itself raises [AttributeError] while the
    arguments of [showerror] are computed. *)
Definition load_params (controls : dict binding) : Py TkGui unit :=
  λ self,
    let '(lnp', failure) := lnp_load_params (self_lnp self) in
    let self := {| self_lnp := lnp'; self_widgets := self_widgets self;
                   self_errors := self_errors self |} in
    let refresh (self : TkGui) :=
      let '(st, r) :=
        update_displays (self_lnp self) controls (self_widgets self) in
      ({| self_lnp := self_lnp self; self_widgets := st;
          self_errors := self_errors self |}, r) in
    match failure with
    | Some message =>
        if is_python3 then (self, Raised AttributeError)
        else refresh (exit_program (showerror message self))
    | None => refresh self
    end.

End LoadParams.

(* ===================================================================== *)
(** ** The tooltip of the hack list *)

(** [TkGui.update_hack_tooltip]; [item] is what [lnp.get_hack] returns for the
    row under the pointer, [None] standing for every result that is not
    true. *)
Definition update_hack_tooltip (item : option hack) : Py hover unit :=
  λ s, match item with
       | Some h =>
           match hack_tooltip h with
           | Some t => (ToolTipM.settext t s, Returned tt)
           | None => (s, Raised KeyError)
           end
       | None => (ToolTipM.settext "" s, Returned tt)
       end.

(** The window of a tooltip is there exactly when the tooltip is active and
    has a text, and then it carries that text. *)
Definition tip_ok (s : hover) : Prop :=
  match tipwindow (tooltip s) with
  | Some w =>
      active (tooltip s) = true ∧ tw_text w = text (tooltip s) ∧
      text (tooltip s) ≠ ""
  | None => active (tooltip s) = false ∨ text (tooltip s) = ""
  end.

(** Nothing is shown and nothing is pending. *)
Definition tip_quiet (s : hover) : Prop :=
  after_queue (tk s) = [] ∧ active (tooltip s) = false ∧
  tipwindow (tooltip s) = None.

Definition is_timer_due (e : tip_event) : bool :=
  match e with TimerDue _ => true | _ => false end.

(** At [s] the tooltip is not active and has no window, and no window was
    created or destroyed since [q]. *)
Definition hidden_since (q s : hover) : Prop :=
  active (tooltip s) = false ∧ tipwindow (tooltip s) = None ∧
  toplevel_count (tk s) = toplevel_count (tk q) ∧
  destroyed (tk s) = destroyed (tk q).

(** The text that the tooltip shows on screen, if it shows one. *)
Definition shown_text (s : hover) : option string :=
  tw_text <$> tipwindow (tooltip s).

(** As many windows were created as were destroyed or are shown, counted
    from the Tk state [k] that the tooltip started with. *)
Definition windows_balanced (k : Tk) (s : hover) : Prop :=
  toplevel_count (tk s) + length (destroyed k) =
  toplevel_count k + length (destroyed (tk s)) +
  match tipwindow (tooltip s) with Some _ => 1 | None => 0 end.

#[global] Instance tip_event_eq_dec : EqDecision tip_event.
Proof. solve_decision. Defined.

(* ===================================================================== *)
(** ** The update notice ([UpdateWindow]) *)

(** [l.index(x)]: the first position of [x] in [l]; [None] stands for the
    [ValueError] of a value that is not in the list. *)
Fixpoint list_index {A} `{EqDecision A} (x : A) (l : list A) : option nat :=
  match l with
  | [] => None
  | y :: l' => if decide (y = x) then Some 0 else S <$> list_index x l'
  end.

(** [[0, 1, 3, 7, 14, 30]] *)
Definition update_days : list Z := [0; 1; 3; 7; 14; 30]%Z.

(** [self.options] *)
Definition update_options : list string :=
  ["next launch"; "1 day"; "3 days"; "7 days"; "14 days"; "30 days"].

(** The text that [UpdateWindow.__init__] puts into [self.var], from
    [lnp.userconfig.get_number('updateDays')]; [None] would be the
    [IndexError] of [self.options[default_idx]]. *)
Definition UpdateWindow_init (updateDays : Z) : option string :=
  let default_idx :=
    match list_index updateDays update_days with
    | Some i => i
    | None => 0
    end in
  update_options !! default_idx.

(** [UpdateWindow.close]: the number of days handed to [lnp.next_update],
    when [self.var] holds [var]; [None] when one of the two lookups raises. *)
Definition UpdateWindow_close (var : string) : option Z :=
  list_index var update_options ≫= λ i, update_days !! i.

(* ===================================================================== *)
(** ** Choosing the game folder ([SelectDF]) *)

Record SelectDF : Type := {
  sd_folders : list string;
  (** [self.folderlist.curselection()] *)
  sd_curselection : list nat;
  sd_result : string;
  (** the window [self.top] still exists *)
  sd_top : bool;
}.

(** [SelectDF.__init__], up to the point where it waits for the window. *)
Definition SelectDF_init (folders : list string) : SelectDF :=
  {| sd_folders := folders; sd_curselection := []; sd_result := "";
     sd_top := true |}.

(** [self.folderlist.get(i)]; Tk answers the empty text for a row that does
    not exist. *)
Definition folderlist_get (self : SelectDF) (i : nat) : string :=
  default "" (sd_folders self !! i).

(** [SelectDF.ok] *)
Definition SelectDF_ok (self : SelectDF) : SelectDF :=
  match sd_curselection self with
  | i :: _ =>
      {| sd_folders := sd_folders self;
         sd_curselection := sd_curselection self;
         sd_result := folderlist_get self i;
         sd_top := false |}
  | [] => self
  end.

(** [SelectDF.cancel] *)
Definition SelectDF_cancel (self : SelectDF) : SelectDF :=
  {| sd_folders := sd_folders self;
     sd_curselection := sd_curselection self;
     sd_result := sd_result self;
     sd_top := false |}.

(** What the user can do while the window waits: pick a row of the list
    (the list selects one row at a time, and only rows that exist), press
    OK or double-click, which both run [ok], or close the window, which runs
    [cancel]. *)
Inductive select_event : Type :=
  | PickRow (i : nat)
  | PressOK
  | CloseWindow.

Definition select_step (self : SelectDF) (e : select_event) : SelectDF :=
  if sd_top self then
    match e with
    | PickRow i =>
        if bool_decide (i < length (sd_folders self))%nat then
          {| sd_folders := sd_folders self; sd_curselection := [i];
             sd_result := sd_result self; sd_top := sd_top self |}
        else self
    | PressOK => SelectDF_ok self
    | CloseWindow => SelectDF_cancel self
    end
  else self.

Definition select_run (self : SelectDF) (es : list select_event) : SelectDF :=
  fold_left select_step es self.

(* ===================================================================== *)
(** ** Saving key bindings *)

(** [s.endswith(suffix)] *)
Fixpoint endswith (s suffix : string) : bool :=
  String.eqb s suffix ||
  match s with
  | EmptyString => false
  | String _ rest => endswith rest suffix
  end.

(** What a command asks of the launcher and of the window itself. *)
Inductive request : Type :=
  | Save_keybinds (name : string)
  | Read_keybinds.

(** [TkGui.save_keybinds]: [askstring] is the answer to the dialog ([None]
    when it is cancelled), [keybind_exists] is [lnp.keybind_exists], and
    [askyesno] is the answer to the question that is asked only for a file
    that exists.  The result lists the calls [lnp.save_keybinds(v)] and
    [self.read_keybinds()] that are made, in order. *)
Definition save_keybinds (askstring : option string)
    (keybind_exists : string → bool) (askyesno : bool) : list request :=
  match askstring with
  | Some v =>
      let v := if negb (endswith v ".txt") then v ++ ".txt" else v in
      if negb (keybind_exists v) || askyesno
      then [Save_keybinds v; Read_keybinds]
      else []
  | None => []
  end.

#[global] Instance request_eq_dec : EqDecision request.
Proof. solve_decision. Defined.

(* ===================================================================== *)
(** ** The preview of a colour scheme *)

(** ["%02x" % n] for a number that is not negative: lower-case hexadecimal
    digits, at least two of them. *)
Definition hex2 (n : N) : string :=
  let s := HexadecimalString.NilZero.string_of_uint (N.to_hex_uint n) in
  if (String.length s <? 2)%nat then "0" ++ s else s.

(** ["#%02x%02x%02x" % c] for a colour [c] of three numbers. *)
Definition color_fill (c : N * N * N) : string :=
  "#" ++ hex2 c.1.1 ++ hex2 c.1.2 ++ hex2 c.2.





Section ColorPreview.

Context {py : Python}.

(** [lnp.get_colors(colorscheme)]: the colours of a scheme, or of the scheme
    that is installed for [None]. *)
Variable get_colors : option string → list (N * N * N).


End ColorPreview.

(** The number that two hexadecimal digits stand for. *)
Definition hex_value (s : string) : option N :=
  N.of_hex_uint <$> HexadecimalString.NilZero.uint_of_string s.

(** A colour whose three parts are below 256. *)
Definition color_ok (c : N * N * N) : Prop :=
  (c.1.1 < 256 ∧ c.1.2 < 256 ∧ c.2 < 256)%N.


(* ===================================================================== *)
(** ** The editor of the init files ([InitEditor]) *)

(** The line feed. *)
Definition newline : string := String "010"%char EmptyString.

(** The two [Text] widgets of the editor, each by the text put into it.  Tk
    keeps a line feed of its own after the text of such a widget. *)
Record InitEditor : Type := {
  init_text : string;
  d_init_text : string;
}.

(** [widget.get('1.0', 'end')]: the index ['end'] lies behind the line feed
    that Tk keeps at the end. *)
Definition text_get_all (content : string) : string := content ++ newline.

Inductive io_outcome : Type :=
  | IO_returned
  | IOError.

Section InitEditorMethods.

(** The main window and the launcher behind it, with the files on disk
    beside them: a file is the text that reading it returns. *)
Variable G : Type.

(** [self.gui.save_params()] and [self.gui.load_params()], taken to return. *)
Variable gui_save_params : G * gmap string string → G * gmap string string.
Variable gui_load_params : G * gmap string string → G * gmap string string.

(** [os.path.join(self.gui.lnp.init_dir, 'init.txt')] and the same for
    ['d_init.txt']. *)
Variable init_path : string.
Variable d_init_path : string.

(** [InitEditor.load]; opening a file that is not there raises [IOError],
    after the widget it was meant for has been emptied. *)
Definition InitEditor_load (w : G * gmap string string) (self : InitEditor)
  : (G * gmap string string) * InitEditor * io_outcome :=
  let w := gui_save_params w in
  let self := {| init_text := ""; d_init_text := d_init_text self |} in
  match w.2 !! init_path with
  | None => (w, self, IOError)
  | Some c =>
      let self := {| init_text := c ++ init_text self;
                     d_init_text := d_init_text self |} in
      let self := {| init_text := init_text self; d_init_text := "" |} in
      match w.2 !! d_init_path with
      | None => (w, self, IOError)
      | Some d =>
          (w, {| init_text := init_text self;
                 d_init_text := d ++ d_init_text self |}, IO_returned)
      end
  end.

(** [InitEditor.save]; a file opened for writing is created or emptied. *)
Definition InitEditor_save (w : G * gmap string string) (self : InitEditor)
  : (G * gmap string string) * InitEditor :=
  let files := <[init_path := text_get_all (init_text self)]> w.2 in
  let files := <[d_init_path := text_get_all (d_init_text self)]> files in
  (gui_load_params (w.1, files), self).

End InitEditorMethods.

(* ===================================================================== *)
(** ** The dialog for the child cap *)

(** [s.split(':')] *)
Fixpoint split_colon (s : string) : list string :=
  match s with
  | EmptyString => [EmptyString]
  | String c rest =>
      if Ascii.eqb c ":"%char then EmptyString :: split_colon rest
      else match split_colon rest with
           | piece :: pieces => String c piece :: pieces
           | [] => [String c EmptyString]
           end
  end.

(** [str(z)] for a whole number. *)
Definition py_str_int (z : Z) : string :=
  DecimalString.NilZero.string_of_int (Z.to_int z).

Section ChildCap.

(** The answers of the user to the two [askinteger] dialogs, which depend on
    the initial value each one shows; [None] is a dialog that was
    cancelled. *)
Variable askinteger1 : string → option Z.
Variable askinteger2 : string → option Z.

(** [TkGui.set_child_cap], for [lnp.settings.childcap = childcap]: the text
    handed to [lnp.set_option('childcap', ...)], after which the displays are
    refreshed; [Some None] when a dialog was cancelled and nothing is
    written, [None] for an [IndexError] of [child_split]. *)
Definition set_child_cap (childcap : string) : option (option string) :=
  let child_split := (split_colon childcap ++ ["0"])%list in
  child_split !! 0%nat ≫= λ initial1,
  match askinteger1 initial1 with
  | Some v =>
      child_split !! 1%nat ≫= λ initial2,
      match askinteger2 initial2 with
      | Some v2 => Some (Some (py_str_int v ++ ":" ++ py_str_int v2))
      | None => Some None
      end
  | None => Some None
  end.

End ChildCap.

(** The text after the first colon of [s], when [s] has a colon. *)
Fixpoint after_colon (s : string) : option string :=
  match s with
  | EmptyString => None
  | String c rest =>
      if Ascii.eqb c ":"%char then Some rest else after_colon rest
  end.

(** No colon occurs in a text. *)
Fixpoint colon_free (s : string) : bool :=
  match s with
  | EmptyString => true
  | String c rest => negb (Ascii.eqb c ":"%char) && colon_free rest
  end.

(** The two init files, for the examples. *)
Definition example_files : gmap string string :=
  {[ "init.txt" := "[SOUND:YES]"; "d_init.txt" := "[AUTOSAVE:NONE]" ]}.

(** Closed side conditions are settled by evaluation. *)
Ltac by_evaluation :=
  first [ reflexivity
        | by vm_compute
        | apply (bool_decide_unpack _); by vm_compute ].

(* ===================================================================== *)
(** * Properties *)

Lemma append_nil_r (s : string) : s ++ "" = s.
Proof. induction s as [|c s IH]; simpl; [done | by f_equal]. Qed.

Lemma append_assoc (a b c : string) : (a ++ b) ++ c = a ++ (b ++ c).
Proof. induction a as [|x a IH]; simpl; [done | by f_equal]. Qed.

Lemma split_colon_0_app_colon (t rest : string) :
  split_colon_0 (split_colon_0 t ++ String ":"%char rest) = split_colon_0 t.
Proof.
  induction t as [|c t IH]; simpl; [done |].
  destruct (Ascii.eqb c ":"%char) eqn:Hc; simpl; [done |].
  by rewrite Hc, IH.
Qed.

Lemma caption_written {py : Python} (w : widget) (s : string) :
  caption (written w s) = caption w.
Proof.
  destruct w; simpl; [done | |];
    by rewrite (split_colon_0_app_colon _ (String " "%char s)).
Qed.

Lemma caption_render {py : Python} (w : widget) (v : value) :
  caption (render w v).1 = caption w.
Proof. destruct v; [by destruct w | apply caption_written]. Qed.

Lemma written_caption {py : Python} (w w' : widget) (s : string) :
  caption w = caption w' → written w s = written w' s.
Proof. destruct w, w'; simpl; intros [=]; congruence. Qed.

(** The loop body, in one step. *)
Lemma update_display_unfold {py : Python} lnp controls key (st : gmap nat widget) :
  update_display lnp controls key st =
  match dict_get controls key with
  | None => (st, Raised KeyError)
  | Some b =>
      match st !! target b with
      | None => (st, Raised TclError)
      | Some w =>
          (<[target b := (render w (shown_value lnp key b)).1]> st,
           (render w (shown_value lnp key b)).2)
      end
  end.
Proof.
  unfold update_display, shown_value, getitem, bind, try_except, lift,
    getattr_settings, get, ret, raise.
  destruct (settings lnp !! key) as [raw|] eqn:Hs; simpl;
    (destruct (dict_get controls key) as [b|]; simpl; [| done]);
    (destruct (st !! target b) as [w|] eqn:Hw; simpl; [| done]);
    set (v := match b with Custom _ f => f lnp _ | Plain _ => _ end);
    destruct w, v; simpl;
    unfold entry_delete_all, entry_insert_0, entry_edit, validate_number,
      cget_text, configure_text, py_add; simpl; rewrite ?Hw; simpl;
    rewrite ?lookup_insert_eq, ?insert_insert_eq, ?append_nil_r; simpl;
    rewrite ?Hw; simpl; rewrite ?(insert_id _ _ _ Hw), ?append_assoc;
    try done.
Qed.

Lemma for_each_cons {S A} (x : A) (xs : list A) (body : A → Py S unit) s :
  for_each (x :: xs) body s =
  match body x s with
  | (s', Returned _) => for_each xs body s'
  | (s', Raised e) => (s', Raised e)
  end.
Proof. done. Qed.

Lemma for_each_app {S A} (xs ys : list A) (body : A → Py S unit) s :
  for_each (xs ++ ys) body s =
  match for_each xs body s with
  | (s', Returned _) => for_each ys body s'
  | (s', Raised e) => (s', Raised e)
  end.
Proof.
  revert s. induction xs as [|x xs IH]; intros s; [done |].
  rewrite <- app_comm_cons, !for_each_cons.
  destruct (body x s) as [s' [[]|e]]; [apply IH | done].
Qed.

Section Refresh.

Context {py : Python}.
Variable lnp : PyLNP.
Variable controls : dict binding.

Lemma same_captions_refl st : same_captions st st.
Proof. by intros c. Qed.

Lemma same_captions_sym st st' : same_captions st st' → same_captions st' st.
Proof. by intros H c. Qed.

Lemma same_captions_trans st1 st2 st3 :
  same_captions st1 st2 → same_captions st2 st3 → same_captions st1 st3.
Proof. intros H1 H2 c. by rewrite H1. Qed.

(** One round leaves class and caption of every widget as they were. *)
Lemma update_display_captions key st st' r :
  update_display lnp controls key st = (st', r) → same_captions st' st.
Proof.
  rewrite update_display_unfold.
  destruct (dict_get controls key) as [b|]; [| by intros [= <- <-]].
  destruct (st !! target b) as [w|] eqn:Hw; intros [= <- <-]; [| done].
  intros c. destruct (decide (c = target b)) as [->|Hne].
  - by rewrite lookup_insert_eq, Hw; simpl; rewrite caption_render.
  - by rewrite lookup_insert_ne.
Qed.

Lemma update_displays_captions ks st st' r :
  for_each ks (update_display lnp controls) st = (st', r) →
  same_captions st' st.
Proof.
  revert st. induction ks as [|k ks IH]; intros st.
  - by intros [= <- <-].
  - rewrite for_each_cons.
    destruct (update_display lnp controls k st) as [sa [[]|e]] eqn:Hk.
    + intros Hrun. eapply same_captions_trans; [by apply IH |].
      by eapply update_display_captions.
    + intros [= <- <-]. by eapply update_display_captions.
Qed.

(** From two stores with the same captions, one round ends the same way and
    leaves each widget either equal in both, or untouched in both. *)
Lemma update_display_agree key st1 st2 st1' st2' r1 r2 :
  same_captions st1 st2 →
  update_display lnp controls key st1 = (st1', r1) →
  update_display lnp controls key st2 = (st2', r2) →
  r1 = r2 ∧
  ∀ c, st1' !! c = st2' !! c ∨
       (st1' !! c = st1 !! c ∧ st2' !! c = st2 !! c).
Proof.
  intros Hcap. rewrite !update_display_unfold.
  destruct (dict_get controls key) as [b|];
    [| intros [= <- <-] [= <- <-]; by auto].
  pose proof (Hcap (target b)) as Hb.
  destruct (st1 !! target b) as [w1|] eqn:H1,
           (st2 !! target b) as [w2|] eqn:H2; simplify_eq/=;
    [| intros [= <- <-] [= <- <-]; by auto].
  intros [= <- <-] [= <- <-].
  destruct (shown_value lnp key b) as [|s]; simpl.
  - destruct w1, w2; simplify_eq/=; (split; [done |]); intros c;
      (destruct (decide (c = target b)) as [->|Hne];
        [rewrite !lookup_insert_eq, ?H1, ?H2; by auto
        |rewrite !lookup_insert_ne by done; by auto]).
  - split; [done |]. intros c.
    destruct (decide (c = target b)) as [->|Hne].
    + left. rewrite !lookup_insert_eq. f_equal. by apply written_caption.
    + right. by rewrite !lookup_insert_ne.
Qed.

Lemma update_displays_agree ks st1 st2 st1' st2' r1 r2 :
  same_captions st1 st2 →
  for_each ks (update_display lnp controls) st1 = (st1', r1) →
  for_each ks (update_display lnp controls) st2 = (st2', r2) →
  r1 = r2 ∧
  ∀ c, st1' !! c = st2' !! c ∨
       (st1' !! c = st1 !! c ∧ st2' !! c = st2 !! c).
Proof.
  revert st1 st2. induction ks as [|k ks IH]; intros st1 st2 Hcap.
  - intros [= <- <-] [= <- <-]. by auto.
  - rewrite !for_each_cons.
    destruct (update_display lnp controls k st1) as [sa [[]|e1]] eqn:Ha,
             (update_display lnp controls k st2) as [sb [[]|e2]] eqn:Hb;
      destruct (update_display_agree _ _ _ _ _ _ _ Hcap Ha Hb)
        as [Hr Hstep]; simplify_eq.
    + intros Hra Hrb.
      assert (same_captions sa sb) as Hcap'.
      { eapply same_captions_trans; [by eapply update_display_captions |].
        eapply same_captions_trans; [done |].
        apply same_captions_sym. by eapply update_display_captions. }
      destruct (IH _ _ Hcap' Hra Hrb) as [-> Hrest]. split; [done |].
      intros c. destruct (Hrest c) as [?|[Hx Hy]]; [by left |].
      destruct (Hstep c) as [Heq|[Hx' Hy']].
      * left. by rewrite Hx, Hy.
      * right. by rewrite Hx, Hy.
    + intros [= <- <-] [= <- <-]. by auto.
Qed.

End Refresh.

(** ** C3: a second refresh changes nothing *)

(** C3.  [update_displays] is idempotent: run again on the widgets it left,
    with the launcher unchanged, it leaves every widget as it is and ends the
    same way (buttons and labels keep the caption cut at the first colon). *)
Theorem update_displays_idempotent {py : Python} (lnp : PyLNP) (controls : dict binding)
    (st : gmap nat widget) :
  update_displays lnp controls (update_displays lnp controls st).1 =
  update_displays lnp controls st.
Proof.
  unfold update_displays.
  destruct (for_each (keys controls) (update_display lnp controls) st)
    as [st1 r1] eqn:E1; simpl.
  destruct (for_each (keys controls) (update_display lnp controls) st1)
    as [st2 r2] eqn:E2.
  assert (same_captions st st1) as Hcap.
  { apply same_captions_sym. by eapply update_displays_captions. }
  destruct (update_displays_agree _ _ _ _ _ _ _ _ _ Hcap E1 E2) as [-> Hw].
  f_equal. apply map_eq. intros c.
  destruct (Hw c) as [?|[? ?]]; congruence.
Qed.

(** ** Dictionaries *)

Lemma dict_get_Some_elem {V} (d : dict V) key v :
  dict_get d key = Some v → (key, v) ∈ d.
Proof.
  induction d as [|[k v'] d IH]; simpl; [done |].
  destruct (String.eqb_spec k key) as [->|Hne].
  - intros [= ->]. apply list_elem_of_here.
  - intros H. apply list_elem_of_further. by apply IH.
Qed.

Lemma dict_get_elem {V} (d : dict V) key v :
  NoDup (keys d) → (key, v) ∈ d → dict_get d key = Some v.
Proof.
  unfold keys. induction d as [|[k v'] d IH]; simpl.
  - intros _ H. by apply elem_of_nil in H.
  - intros [Hk Hd]%NoDup_cons [[= -> ->]|Hin]%elem_of_cons.
    + by rewrite String.eqb_refl.
    + destruct (String.eqb_spec k key) as [->|Hne]; [| by apply IH].
      destruct Hk. apply list_elem_of_fmap. by exists (key, v).
Qed.

Lemma dict_get_set_eq {V} (d : dict V) key v :
  dict_get (dict_set d key v) key = Some v.
Proof.
  induction d as [|[k v'] d IH]; simpl.
  - by rewrite String.eqb_refl.
  - destruct (String.eqb_spec k key) as [->|Hne]; simpl.
    + by rewrite String.eqb_refl.
    + by destruct (String.eqb_spec k key).
Qed.

Lemma dict_get_set_ne {V} (d : dict V) key key' v :
  key' ≠ key → dict_get (dict_set d key v) key' = dict_get d key'.
Proof.
  intros Hne. induction d as [|[k v'] d IH]; simpl.
  - by destruct (String.eqb_spec key key').
  - destruct (String.eqb_spec k key) as [->|Hk]; simpl.
    + by destruct (String.eqb_spec key key').
    + by rewrite IH.
Qed.

Lemma keys_dict_set_present {V} (d : dict V) key v :
  is_Some (dict_get d key) → keys (dict_set d key v) = keys d.
Proof.
  unfold keys. induction d as [|[k v'] d IH]; simpl.
  - by intros [? ?].
  - destruct (String.eqb_spec k key) as [->|Hk]; csimpl; [done |].
    intros H. f_equal. by apply IH.
Qed.

Lemma keys_dict_set_absent {V} (d : dict V) key v :
  dict_get d key = None → keys (dict_set d key v) = (keys d ++ [key])%list.
Proof.
  unfold keys. induction d as [|[k v'] d IH]; simpl; [done |].
  destruct (String.eqb_spec k key) as [->|Hk]; csimpl; [done |].
  intros H. f_equal. by apply IH.
Qed.

(** No key is assigned twice while the interface is built. *)
Lemma tkgui_controls_assignments : tkgui_controls = tkgui_assignments.
Proof. reflexivity. Qed.

Lemma tkgui_controls_NoDup : NoDup (keys tkgui_controls).
Proof. apply (bool_decide_unpack _). by vm_compute. Qed.

(** ** What a completed refresh shows *)

Section Shows.

Context {py : Python}.
Variable lnp : PyLNP.
Variable controls : dict binding.

(** Rounds for keys bound to other controls leave a widget alone. *)
Lemma update_displays_untouched ks c (st st' : gmap nat widget) r :
  (∀ k b, k ∈ ks → dict_get controls k = Some b → target b ≠ c) →
  for_each ks (update_display lnp controls) st = (st', r) →
  st' !! c = st !! c.
Proof.
  revert st. induction ks as [|k ks IH]; intros st Hks.
  - by intros [= <- <-].
  - rewrite for_each_cons.
    destruct (update_display lnp controls k st) as [sa ra] eqn:Hk.
    assert (sa !! c = st !! c) as Hsa.
    { revert Hk. rewrite update_display_unfold.
      destruct (dict_get controls k) as [b|] eqn:Hb; [| by intros [= <- <-]].
      destruct (st !! target b); intros [= <- <-]; [| done].
      apply lookup_insert_ne. eapply Hks; [apply list_elem_of_here | done]. }
    destruct ra as [[]|e]; [| by intros [= <- <-]].
    intros Hrun. rewrite <- Hsa. apply IH; [| done].
    intros k' b' Hin. apply Hks. by apply list_elem_of_further.
Qed.

Lemma update_displays_shows (st st' : gmap nat widget) key b w s :
  NoDup (keys controls) →
  dict_get controls key = Some b →
  drives_alone controls key (target b) →
  st !! target b = Some w →
  shown_value lnp key b = PyStr s →
  update_displays lnp controls st = (st', Returned tt) →
  st' !! target b = Some (written w s).
Proof.
  intros Hnd Hb Halone Hw Hv. unfold update_displays.
  assert (key ∈ keys controls) as Hin.
  { apply list_elem_of_fmap. exists (key, b).
    split; [done | by apply dict_get_Some_elem]. }
  apply list_elem_of_split in Hin as (l1 & l2 & Hsplit).
  rewrite Hsplit in Hnd |- *.
  apply NoDup_app in Hnd as (_ & Hl1 & [Hl2 _]%NoDup_cons).
  assert (∀ ks, ks ⊆ keys controls → key ∉ ks →
    ∀ k b', k ∈ ks → dict_get controls k = Some b' →
            target b' ≠ target b) as Hother.
  { intros ks Hsub Hnot k b' Hk Hb' Heq.
    unfold drives_alone in Halone. rewrite Forall_forall in Halone.
    pose proof (Halone (k, b') (dict_get_Some_elem _ _ _ Hb') Heq) as Hkk.
    simpl in Hkk. by subst k. }
  rewrite for_each_app.
  destruct (for_each l1 (update_display lnp controls) st)
    as [s1 [[]|e]] eqn:H1; [| done].
  rewrite for_each_cons.
  destruct (update_display lnp controls key s1) as [s2 r2] eqn:H2.
  destruct r2 as [[]|e]; [| done]. intros H3.
  assert (s1 !! target b = Some w) as Hw1.
  { rewrite <- Hw. eapply update_displays_untouched; [| done].
    apply Hother; [| intros Hk; by apply (Hl1 key); [| left]].
    rewrite Hsplit. set_solver. }
  assert (st' !! target b = s2 !! target b) as ->.
  { eapply update_displays_untouched; [| exact H3].
    apply Hother; [rewrite Hsplit; set_solver | done]. }
  revert H2. rewrite update_display_unfold, Hb, Hw1, Hv. simpl.
  intros [= <-]. by rewrite lookup_insert_eq.
Qed.

End Shows.

(** ** C1: keys bound to a control alone *)

(** C1 (as amended).  After a refresh that completes, a key bound to a control
    without a function, whose setting is the text [s] and which is the only
    key of that control, shows [s] as follows: an entry holds exactly [s] when
    [validate_number] accepts [s] (the empty text, or a text that [float]
    accepts) and is left empty when it does not; a button or a label shows
    its caption (its former text up to the first colon), then a colon and a
    blank, then [s]. *)
Theorem update_displays_plain {py : Python} lnp controls
    (st st' : gmap nat widget) key c w s :
  NoDup (keys controls) →
  dict_get controls key = Some (Plain c) →
  drives_alone controls key c →
  st !! c = Some w →
  settings lnp !! key = Some (PyStr s) →
  update_displays lnp controls st = (st', Returned tt) →
  st' !! c = Some (written w s) ∧
  display (written w s) =
    (if is_Entry w then (if validate_number s then s else "")
     else split_colon_0 (display w) ++ ": " ++ s).
Proof.
  intros Hnd Hb Halone Hw Hs Hrun. split; [| by destruct w].
  apply (update_displays_shows lnp controls st st' key (Plain c) w s);
    try done.
  unfold shown_value. by rewrite Hs.
Qed.

Lemma update_displays_plain_witness :
  (update_displays (py := example_python2)
     example_lnp tkgui_controls tkgui_widgets).1 !! 0
  = Some (Button "Population Cap: 200").
Proof.
  refine (proj1 (update_displays_plain (py := example_python2)
            example_lnp tkgui_controls
            tkgui_widgets _ "popcap" 0 (Button "Population Cap") "200"
            _ _ _ _ _ _)); by_evaluation.
Defined.

(** C1 (as the specification words it) fails: the button of [popcap] reads
    "Population Cap: 200", not "200". *)
Lemma plain_shows_raw_value_fails : ¬ plain_shows_raw_value.
Proof.
  intros H.
  assert (display <$>
            (update_displays (py := example_python2)
               example_lnp tkgui_controls tkgui_widgets).1 !! 0
          = Some "200") as Hshow.
  { apply (H example_python2 example_lnp tkgui_controls tkgui_widgets _
             "popcap" 0 "200");
      by_evaluation. }
  vm_compute in Hshow. discriminate Hshow.
Qed.

(** ** C2: keys bound to a control with a function *)

(** C2 (as amended).  After a refresh that completes, a key bound to a
    [(control, func)] tuple, alone on that control, shows the text that [func]
    returns for the setting ([None] when the launcher has no such setting):
    an entry holds exactly that text when [validate_number] accepts it and is
    left empty when it does not; a button or a label shows its caption, a
    colon and a blank, and then that text.  The setting itself reaches the
    widget only through [func]. *)
Theorem update_displays_custom {py : Python} lnp controls
    (st st' : gmap nat widget) key c func w s :
  NoDup (keys controls) →
  dict_get controls key = Some (Custom c func) →
  drives_alone controls key c →
  st !! c = Some w →
  func lnp (default PyNone (settings lnp !! key)) = PyStr s →
  update_displays lnp controls st = (st', Returned tt) →
  st' !! c = Some (written w s) ∧
  display (written w s) =
    (if is_Entry w then (if validate_number s then s else "")
     else split_colon_0 (display w) ++ ": " ++ s).
Proof.
  intros Hnd Hb Halone Hw Hs Hrun. split; [| by destruct w].
  by apply (update_displays_shows lnp controls st st' key (Custom c func) w s).
Qed.

Lemma update_displays_custom_witness :
  (update_displays (py := example_python2)
     example_lnp tkgui_controls tkgui_widgets).1 !! 26
  = Some (Button "Close GUI on launch: YES").
Proof.
  refine (proj1 (update_displays_custom (py := example_python2)
            example_lnp tkgui_controls
            tkgui_widgets _ "autoClose" 26 autoClose_func
            (Button "Close GUI on launch") "YES" _ _ _ _ _ _)); by_evaluation.
Defined.

(** C2 (as the specification words it) fails: the label of [FONT] reads
    "Current Graphics: Phoebus", not the "Phoebus" its function returns. *)
Lemma custom_shows_func_value_fails : ¬ custom_shows_func_value.
Proof.
  intros H.
  assert (display <$>
            (update_displays (py := example_python2)
               example_lnp tkgui_controls tkgui_widgets).1 !! 10
          = Some "Phoebus") as Hshow.
  { apply (H example_python2 example_lnp tkgui_controls tkgui_widgets _
             "FONT" 10 FONT_func
             (PyStr "curses_640x300.png") "Phoebus"); by_evaluation. }
  vm_compute in Hshow. discriminate Hshow.
Qed.

(** ** A refresh that returns has completed every round *)

Lemma for_each_returned {S A} (xs : list A) (body : A → Py S unit) s s' x :
  for_each xs body s = (s', Returned tt) →
  x ∈ xs →
  ∃ s1 s2, body x s1 = (s2, Returned tt).
Proof.
  revert s. induction xs as [|y xs IH]; intros s Hrun Hin.
  - by apply elem_of_nil in Hin.
  - rewrite for_each_cons in Hrun.
    destruct (body y s) as [sa [[]|e]] eqn:Hy; [| done].
    apply elem_of_cons in Hin as [->|Hin]; [by eauto |].
    by eapply IH.
Qed.

(** In whatever order the keys are visited, a key without a setting that is
    bound to a control without a function makes the refresh raise. *)
Lemma update_displays_plain_missing_raises {py : Python} lnp controls key c
    (st : gmap nat widget) :
  dict_get controls key = Some (Plain c) →
  settings lnp !! key = None →
  (update_displays lnp controls st).2 ≠ Returned tt.
Proof.
  intros Hb Hs Hret. unfold update_displays in Hret.
  destruct (for_each (keys controls) (update_display lnp controls) st)
    as [st' r] eqn:Hrun. simpl in Hret. subst r.
  assert (key ∈ keys controls) as Hin.
  { apply list_elem_of_fmap. exists (key, Plain c).
    split; [done | by apply dict_get_Some_elem]. }
  destruct (for_each_returned _ _ _ _ _ Hrun Hin) as (s1 & s2 & Hstep).
  revert Hstep. rewrite update_display_unfold, Hb. unfold shown_value.
  rewrite Hs. simpl.
  destruct (s1 !! c) as [[]|]; simpl; by intros [= _ ?].
Qed.

(** ** C4: a setting that is missing *)

(** C4.  With no [popcap] among the settings, the round of [popcap] catches
    the [KeyError], goes on with [None] and fails to concatenate it to the
    caption: the refresh ends there with a [TypeError], and no control is
    rewritten, although every other key has its setting and the refresh with
    [popcap] present rewrites them all. *)
Theorem update_displays_missing_setting_aborts {py : Python} :
  update_displays example_lnp_without_popcap tkgui_controls tkgui_widgets
    = (tkgui_widgets, Raised TypeError) ∧
  settings example_lnp_without_popcap !! "invaders" = Some (PyStr "YES") ∧
  tkgui_widgets !! 1 = Some (Button "Invaders") ∧
  (update_displays example_lnp tkgui_controls tkgui_widgets).1 !! 1
    = Some (Button "Invaders: YES").
Proof. repeat split; by_evaluation. Qed.

(** ** C5: assigning a key twice *)

(** C5 (as amended).  Assigning a key that is already in [self.controls] does
    not fail: the new binding takes the place of the old one, the keys and
    the bindings of the other keys stay as they are. *)
Theorem register_replaces (controls : dict binding) key old b :
  dict_get controls key = Some old →
  ∃ controls',
    register controls key b = Returned controls' ∧
    dict_get controls' key = Some b ∧
    keys controls' = keys controls ∧
    ∀ key', key' ≠ key → dict_get controls' key' = dict_get controls key'.
Proof.
  intros Hold. exists (dict_set controls key b). split; [done |].
  split; [apply dict_get_set_eq |].
  split; [apply keys_dict_set_present; by eexists |].
  intros key' Hne. by apply dict_get_set_ne.
Qed.

Lemma register_replaces_witness :
  ∃ controls',
    register tkgui_controls "popcap" (Custom 10 FONT_func)
      = Returned controls' ∧
    dict_get controls' "popcap" = Some (Custom 10 FONT_func) ∧
    keys controls' = keys tkgui_controls ∧
    ∀ key', key' ≠ "popcap" →
            dict_get controls' key' = dict_get tkgui_controls key'.
Proof.
  apply (register_replaces tkgui_controls "popcap" (Plain 0)). reflexivity.
Defined.

(** C5 (as the specification words it) fails: the second assignment of
    [popcap] returns. *)
Lemma register_rejects_duplicates_fails : ¬ register_rejects_duplicates.
Proof.
  intros H.
  destruct (H [("popcap", Plain 0)] "popcap" (Plain 1)) as [e He].
  - by eexists.
  - discriminate He.
Qed.

(** ** Tooltips: timers *)

Lemma showtip_timers s :
  after_queue (tk (ToolTipM.showtip s)) = after_queue (tk s) ∧
  after_count (tk (ToolTipM.showtip s)) = after_count (tk s) ∧
  event (tooltip (ToolTipM.showtip s)) = event (tooltip s).
Proof.
  unfold ToolTipM.showtip. simpl.
  by destruct (bool_decide _ || String.eqb _ _).
Qed.

Lemma hidetip_timers s :
  after_queue (tk (ToolTipM.hidetip s)) = after_queue (tk s) ∧
  after_count (tk (ToolTipM.hidetip s)) = after_count (tk s) ∧
  event (tooltip (ToolTipM.hidetip s)) = event (tooltip s).
Proof. unfold ToolTipM.hidetip. by destruct (tipwindow (tooltip s)). Qed.

Lemma settext_timers new_text s :
  after_queue (tk (ToolTipM.settext new_text s)) = after_queue (tk s) ∧
  after_count (tk (ToolTipM.settext new_text s)) = after_count (tk s) ∧
  event (tooltip (ToolTipM.settext new_text s)) = event (tooltip s).
Proof.
  unfold ToolTipM.settext.
  destruct (String.eqb new_text (text (tooltip s))); [done |]. simpl.
  destruct (active (tooltip s)); [| done].
  set (s1 := {| tk := tk s;
                tooltip := {| tipwindow := tipwindow (tooltip s);
                              event := event (tooltip s); text := new_text;
                              active := true |} |}).
  destruct (showtip_timers (ToolTipM.hidetip s1)) as (-> & -> & ->).
  by destruct (hidetip_timers s1) as (-> & -> & ->).
Qed.

Lemma timers_ok_same s s' :
  after_queue (tk s') = after_queue (tk s) →
  event (tooltip s') = event (tooltip s) →
  timers_ok s → timers_ok s'.
Proof. unfold timers_ok. by intros -> ->. Qed.

(** Cancelling the timer that [event] names empties the queue. *)
Lemma after_cancel_event s id :
  timers_ok s → event (tooltip s) = Some id →
  after_queue (after_cancel id (tk s)) = [].
Proof.
  unfold timers_ok. simpl. intros Hok Hev.
  destruct (after_queue (tk s)) as [|[id' d] [|? ?]]; [done | | done].
  rewrite Hev in Hok. injection Hok as ->.
  rewrite filter_cons. simpl. by destruct (decide (id' ≠ id')).
Qed.

Lemma timers_ok_no_event s :
  timers_ok s → event (tooltip s) = None → after_queue (tk s) = [].
Proof.
  unfold timers_ok. intros Hok Hev.
  destruct (after_queue (tk s)) as [|[id' d] [|? ?]]; [done | | done].
  by rewrite Hev in Hok.
Qed.

Lemma enter_queue s :
  timers_ok s →
  after_queue (tk (enter s)) = [(after_count (tk s), _TOOLTIP_DELAY)] ∧
  event (tooltip (enter s)) = Some (after_count (tk s)).
Proof.
  intros Hok. unfold enter, after.
  destruct (event (tooltip s)) as [id|] eqn:Hev; simpl.
  - pose proof (after_cancel_event s id Hok Hev) as Hq. simpl in Hq.
    by rewrite Hq.
  - by rewrite (timers_ok_no_event s Hok Hev).
Qed.

Lemma leave_queue s : timers_ok s → after_queue (tk (leave s)) = [].
Proof.
  intros Hok. unfold leave.
  destruct (event (tooltip s)) as [id|] eqn:Hev.
  - destruct (hidetip_timers
      {| tk := after_cancel id (tk s);
         tooltip := set_event None (tooltip s) |}) as (-> & _).
    by apply after_cancel_event.
  - destruct (hidetip_timers s) as (-> & _).
    by apply timers_ok_no_event.
Qed.

Lemma tip_step_timers_ok s e : timers_ok s → timers_ok (tip_step s e).
Proof.
  intros Hok. destruct e as [| |id|x y|new_text]; simpl.
  - destruct (enter_queue s Hok) as [Hq He]. unfold timers_ok.
    by rewrite Hq, He.
  - unfold timers_ok. by rewrite (leave_queue s Hok).
  - unfold timer_due. case_bool_decide as Hin; [| done].
    destruct (showtip_timers
      {| tk := after_cancel id (tk s); tooltip := tooltip s |})
      as (Hq & _ & He).
    unfold timers_ok. rewrite Hq, He. simpl.
    revert Hok Hin. unfold timers_ok.
    destruct (after_queue (tk s)) as [|[id' d] [|? ?]]; [done | | done].
    intros _ Hin. simpl in Hin. apply list_elem_of_singleton in Hin as ->.
    rewrite filter_cons. simpl. by destruct (decide (id' ≠ id')).
  - done.
  - destruct (settext_timers new_text s) as (Hq & _ & He).
    by eapply timers_ok_same.
Qed.

Lemma tip_run_timers_ok s es : timers_ok s → timers_ok (tip_run s es).
Proof.
  revert s. unfold tip_run.
  induction es as [|e es IH]; intros s Hok; simpl; [done |].
  apply IH. by apply tip_step_timers_ok.
Qed.

(** C8.  Whatever happens to a tooltip, at most one of its timers is pending;
    entering the widget leaves exactly the timer it has just scheduled (one
    that was pending is cancelled first), and leaving the widget leaves
    none. *)
Theorem tooltip_one_timer (k : Tk) (text0 : string) (es : list tip_event) :
  let s := tip_run (create_tooltip k text0) es in
  (length (after_queue (tk s)) ≤ 1)%nat ∧
  after_queue (tk (enter s)) = [(after_count (tk s), _TOOLTIP_DELAY)] ∧
  after_queue (tk (leave s)) = [].
Proof.
  intros s.
  assert (timers_ok s) as Hok by (by apply tip_run_timers_ok).
  split; [| split].
  - revert Hok. unfold timers_ok.
    destruct (after_queue (tk s)) as [|[? ?] [|? ?]]; simpl; intros H;
      [lia | lia | done].
  - by apply enter_queue.
  - by apply leave_queue.
Qed.

(** ** Tooltips: setting the text *)

(** C9 (as amended).  While the tooltip is shown, setting the text it already
    has changes nothing.  Setting another text destroys the window and keeps
    timers and [event] as they are; when the new text is not empty a new
    window with that text is created at once, 16 pixels right of and below
    the place where the pointer is now; when the new text is empty no window
    is created, and the tooltip stays active. *)
Theorem settext_when_shown (s : hover) (new_text : string) (w : Toplevel) :
  active (tooltip s) = true →
  tipwindow (tooltip s) = Some w →
  let s' := ToolTipM.settext new_text s in
  (new_text = text (tooltip s) → s' = s) ∧
  (new_text ≠ text (tooltip s) →
     text (tooltip s') = new_text ∧
     active (tooltip s') = true ∧
     destroyed (tk s') = tw_id w :: destroyed (tk s) ∧
     after_queue (tk s') = after_queue (tk s) ∧
     after_count (tk s') = after_count (tk s) ∧
     event (tooltip s') = event (tooltip s) ∧
     tipwindow (tooltip s') =
       if String.eqb new_text "" then None
       else Some {| tw_id := toplevel_count (tk s);
                    tw_x := pointerx (tk s) + 16;
                    tw_y := pointery (tk s) + 16;
                    tw_text := new_text |}).
Proof.
  intros Hact Hwin s'. subst s'. unfold ToolTipM.settext. split.
  - intros ->. by rewrite String.eqb_refl.
  - intros Hne. apply String.eqb_neq in Hne. rewrite Hne. simpl.
    rewrite Hact. unfold ToolTipM.hidetip. simpl. rewrite Hwin.
    unfold ToolTipM.showtip. simpl.
    by destruct (String.eqb new_text "").
Qed.

Lemma settext_when_shown_witness :
  anchor hack_tooltip_shown = Some (26, 36)%Z ∧
  anchor (ToolTipM.settext "Various tweaks" hack_tooltip_shown)
    = Some (66, 76)%Z ∧
  anchor (ToolTipM.settext "" hack_tooltip_shown) = None.
Proof.
  pose proof (settext_when_shown hack_tooltip_shown "Various tweaks"
    {| tw_id := 0; tw_x := 26; tw_y := 36; tw_text := "Allows mouse use" |}
    eq_refl eq_refl) as [_ Hnew].
  pose proof (settext_when_shown hack_tooltip_shown ""
    {| tw_id := 0; tw_x := 26; tw_y := 36; tw_text := "Allows mouse use" |}
    eq_refl eq_refl) as [_ Hempty].
  split; [reflexivity |]. unfold anchor. split.
  - destruct Hnew as (_ & _ & _ & _ & _ & _ & ->); [discriminate |].
    reflexivity.
  - destruct Hempty as (_ & _ & _ & _ & _ & _ & ->); [discriminate |].
    reflexivity.
Defined.

(** C9 (as the specification words it) fails: the tooltip was drawn at
    (26, 36); after the pointer moved to (50, 60), a new text is drawn at
    (66, 76). *)
Lemma settext_redraws_in_place_fails : ¬ settext_redraws_in_place.
Proof.
  intros H.
  destruct (H example_tk ""
              [PointerEnter; SetText "Allows mouse use"; TimerDue 0;
               PointerMotion 50 60] "Various tweaks") as [_ Hanchor].
  - split; [reflexivity | by eexists].
  - discriminate.
  - vm_compute in Hanchor. discriminate Hanchor.
Qed.

(** ** List views *)

Lemma filter_ne_fresh {A} (l : list (nat * A)) (i : nat) :
  i ∉ l.*1 → filter (λ r : nat * A, r.1 ≠ i) l = l.
Proof.
  induction l as [|[j a] l IH]; [done |]. csimpl.
  intros [Hj Hl]%not_elem_of_cons. rewrite filter_cons. simpl.
  destruct (decide (j ≠ i)) as [|Hn]; [by rewrite IH |].
  destruct Hn. by intros ->.
Qed.

(** The first loop of both refreshes removes every row. *)
Lemma delete_children (tv : Treeview) :
  NoDup (tree_children tv).*1 →
  for_each (tree_children tv).*1 tree_delete tv =
  ({| tree_children := []; tree_count := tree_count tv |}, Returned tt).
Proof.
  destruct tv as [l n]. simpl. revert n.
  induction l as [|[i a] l IH]; intros n; [done |].
  rewrite fmap_cons. intros [Hi Hl]%NoDup_cons. rewrite for_each_cons.
  unfold tree_delete at 1. cbn [tree_children tree_count fst].
  rewrite fmap_cons.
  rewrite bool_decide_eq_true_2 by apply list_elem_of_here.
  rewrite filter_cons. simpl.
  destruct (decide (i ≠ i)); [done |].
  rewrite (filter_ne_fresh l i Hi). by apply IH.
Qed.

(** A loop that only inserts adds one row per item, in order. *)
Lemma for_each_insert {A} (xs : list A) (body : A → Py Treeview unit)
    (mk : A → item) (tv : Treeview) :
  (∀ x tv', x ∈ xs →
     body x tv' = tree_insert_end (item_text (mk x)) (item_values (mk x)) tv') →
  for_each xs body tv =
  ({| tree_children :=
        (tree_children tv ++
         zip (seq (tree_count tv) (length xs)) (mk <$> xs))%list;
      tree_count := tree_count tv + length xs |}, Returned tt).
Proof.
  revert tv. induction xs as [|x xs IH]; intros [l n] Hbody; simpl.
  - unfold ret. by rewrite app_nil_r, Nat.add_0_r.
  - change (for_each (x :: xs) body {| tree_children := l; tree_count := n |})
      with (bind (body x) (λ _, for_each xs body)
              {| tree_children := l; tree_count := n |}).
    unfold bind. rewrite Hbody by apply list_elem_of_here.
    unfold tree_insert_end at 1. simpl.
    rewrite IH by (intros; apply Hbody; by apply list_elem_of_further).
    simpl. destruct (mk x) as [t v]. simpl.
    by rewrite <- app_assoc, Nat.add_succ_r.
Qed.

Lemma rows_after_insert {A} (l : list (nat * item)) (n : nat) (xs : list A)
    (mk : A → item) :
  rows {| tree_children := (l ++ zip (seq n (length xs)) (mk <$> xs))%list;
          tree_count := n + length xs |} = (l.*2 ++ (mk <$> xs))%list.
Proof.
  unfold rows. simpl. rewrite fmap_app. f_equal.
  apply snd_zip. by rewrite length_seq, length_fmap.
Qed.

Lemma tree_ok_after_insert {A} (n : nat) (xs : list A) (mk : A → item) :
  tree_ok {| tree_children := zip (seq n (length xs)) (mk <$> xs);
             tree_count := n + length xs |}.
Proof.
  unfold tree_ok. simpl.
  rewrite fst_zip by (by rewrite length_seq, length_fmap).
  split; [apply NoDup_seq |].
  apply Forall_forall. intros i Hi%elem_of_seq. lia.
Qed.


Section ListViews.

Variable path : os_path.
Variable lnp : PyLNP.

Lemma update_autorun_list_result (progs : list string) (tv : Treeview) :
  tree_ok tv →
  update_autorun_list path lnp progs tv =
  ({| tree_children :=
        zip (seq (tree_count tv) (length progs))
            (autorun_row path lnp <$> progs);
      tree_count := tree_count tv + length progs |}, Returned tt).
Proof.
  intros [Hnd _]. unfold update_autorun_list, bind, get_children.
  rewrite (delete_children tv Hnd).
  by rewrite (for_each_insert progs _ (autorun_row path lnp)).
Qed.

(** The second loop of [update_hack_list], while every hack has its
    [enabled] entry. *)
Lemma insert_hacks_ok (hacks : list (string * hack)) (tv : Treeview) :
  Forall (λ kh : string * hack, is_Some (hack_enabled kh.2)) hacks →
  ∃ tv',
    for_each hacks (λ kh,
      enabled <- lift (hack_getitem_enabled kh.2) ;;
      tree_insert_end kh.1 (kh.1, if enabled then "Yes" else "No")) tv
    = (tv', Returned tt) ∧
    Some <$> rows tv' = ((Some <$> rows tv) ++ (hack_row_of <$> hacks))%list ∧
    (tree_ok tv → tree_ok tv').
Proof.
  revert tv. induction hacks as [|[k h] hacks IH]; intros tv Hall.
  - exists tv. simpl. by rewrite app_nil_r.
  - apply Forall_cons in Hall as [[b Hb] Hall]. simpl in Hb.
    rewrite for_each_cons. unfold bind at 1, lift, hack_getitem_enabled.
    simpl. rewrite Hb. unfold tree_insert_end at 1.
    destruct (IH {| tree_children :=
                      (tree_children tv ++ [(tree_count tv, hack_row k b)])%list;
                    tree_count := S (tree_count tv) |} Hall)
      as (tv' & Hrun & Hrows & Hok).
    exists tv'. split; [exact Hrun |]. split.
    + rewrite Hrows. unfold rows, hack_row_of. simpl. rewrite Hb. simpl.
      rewrite !fmap_app. simpl. by rewrite <- app_assoc.
    + intros [Hnd Hlt]. apply Hok. unfold tree_ok. simpl.
      rewrite fmap_app. simpl. split.
      * apply NoDup_app. split; [done |]. split; [| apply NoDup_singleton].
        intros i Hi Hi'%list_elem_of_singleton. subst i.
        rewrite Forall_forall in Hlt. specialize (Hlt _ Hi). lia.
      * apply Forall_app. split.
        -- eapply Forall_impl; [exact Hlt |]. simpl. lia.
        -- apply Forall_singleton. lia.
Qed.

Lemma update_hack_list_unfold (tv : Treeview) :
  tree_ok tv →
  update_hack_list lnp tv =
  for_each (get_hacks lnp) (λ kh,
    enabled <- lift (hack_getitem_enabled kh.2) ;;
    tree_insert_end kh.1 (kh.1, if enabled then "Yes" else "No"))
    {| tree_children := []; tree_count := tree_count tv |}.
Proof.
  intros [Hnd _]. unfold update_hack_list, get_children.
  unfold bind at 1. unfold bind at 1.
  by rewrite (delete_children tv Hnd).
Qed.


Lemma update_hack_list_raises (tv : Treeview) pre k h post :
  tree_ok tv →
  get_hacks lnp = (pre ++ (k, h) :: post)%list →
  Forall (λ kh : string * hack, is_Some (hack_enabled kh.2)) pre →
  hack_enabled h = None →
  ∃ tv',
    update_hack_list lnp tv = (tv', Raised KeyError) ∧
    Some <$> rows tv' = hack_row_of <$> pre.
Proof.
  intros Htv Hsplit Hpre Hnone.
  rewrite (update_hack_list_unfold tv Htv), Hsplit, for_each_app.
  destruct (insert_hacks_ok pre
              {| tree_children := []; tree_count := tree_count tv |} Hpre)
    as (tv' & Hrun & Hrows & _).
  rewrite Hrun, for_each_cons. unfold bind, lift, hack_getitem_enabled.
  simpl. rewrite Hnone. by exists tv'.
Qed.

End ListViews.

Lemma hack_rows_texts (rs : list item) (hs : list (string * hack)) :
  Some <$> rs = hack_row_of <$> hs →
  item_text <$> rs = hs.*1 ∧ length rs = length hs.
Proof.
  revert rs. induction hs as [|[k h] hs IH]; intros [|r rs]; try done.
  rewrite !fmap_cons. intros [= Hr Hrs].
  destruct (IH rs Hrs) as [Ht Hl]. simpl. rewrite Ht, Hl.
  unfold hack_row_of in Hr. simpl in Hr.
  destruct (hack_enabled h); simplify_eq/=. done.
Qed.

(** ** C6: a list view is rebuilt from its items *)




(** ** C7: a status that cannot be read *)

(** C7 (as amended).  When a hack has no [enabled] entry, [update_hack_list]
    ends with the [KeyError] of that lookup: the rows of the earlier refresh
    are gone, the hacks before it have their rows, with their status, and
    neither that hack nor any hack after it has a row. *)
Theorem update_hack_list_aborts (lnp : PyLNP) (hacklist : Treeview)
    (pre post : list (string * hack)) (k : string) (h : hack) :
  tree_ok hacklist →
  get_hacks lnp = (pre ++ (k, h) :: post)%list →
  Forall (λ kh : string * hack, is_Some (hack_enabled kh.2)) pre →
  hack_enabled h = None →
  ∃ hacklist',
    update_hack_list lnp hacklist = (hacklist', Raised KeyError) ∧
    Some <$> rows hacklist' = hack_row_of <$> pre ∧
    length (rows hacklist') = length pre.
Proof.
  intros Hok Hsplit Hpre Hnone.
  destruct (update_hack_list_raises lnp hacklist pre k h post
              Hok Hsplit Hpre Hnone) as (tv' & Hrun & Hrows).
  exists tv'. by destruct (hack_rows_texts _ _ Hrows).
Qed.

Lemma update_hack_list_aborts_witness :
  ∃ hacklist',
    update_hack_list example_lnp_broken_hack example_tree
      = (hacklist', Raised KeyError) ∧
    rows hacklist' = [hack_row "Partial Mouse Control" true].
Proof.
  destruct (update_hack_list_aborts example_lnp_broken_hack example_tree
    [("Partial Mouse Control",
      {| hack_enabled := Some true; hack_tooltip := Some "Allows mouse use" |})]
    [("Performance Tweaks",
      {| hack_enabled := Some false; hack_tooltip := Some "Various tweaks" |})]
    "Broken" {| hack_enabled := None; hack_tooltip := None |}
    ltac:(by_evaluation) eq_refl ltac:(by_evaluation) eq_refl)
    as (hl & Hrun & Hrows & _).
  exists hl. split; [exact Hrun |].
  apply (inj (fmap Some)). rewrite Hrows. reflexivity.
Defined.

(** C7 (as the specification words it) fails: with a hack that has no
    [enabled] entry the refresh of the hack list does not return. *)
Lemma hack_list_isolates_failures_fails : ¬ hack_list_isolates_failures.
Proof.
  intros H.
  destruct (H example_lnp_broken_hack example_tree ltac:(by_evaluation))
    as (hl & Hrun & _).
  vm_compute in Hrun. discriminate Hrun.
Qed.

(** ** C10: an entry that was emptied *)

(** C10.  For an entry whose text is empty, [change_entry] sends nothing to
    the launcher, whatever the key, and leaves the launcher as it is; for any
    other text it sends exactly that text. *)
Theorem change_entry_empty (set_option : string → string → Py PyLNP unit)
    (key : string) (lnp : PyLNP) :
  change_entry set_option key "" lnp = (lnp, Returned tt) ∧
  ∀ c rest,
    change_entry set_option key (String c rest) lnp
    = set_option key (String c rest) lnp.
Proof.
  split.
  - unfold change_entry. rewrite String.eqb_refl. reflexivity.
  - intros c rest. unfold change_entry.
    destruct (String.eqb_spec (String c rest) "") as [Heq|_];
      [discriminate Heq | reflexivity].
Qed.

(** ** Worked examples *)

(** The whole interface, refreshed once. *)
Example update_displays_example :
  let r := update_displays (py := example_python2)
             example_lnp tkgui_controls tkgui_widgets in
  r.2 = Returned tt ∧
  r.1 !! 2 = Some (Button "Child Cap: 100:1000") ∧
  r.1 !! 10 = Some (Label "Current Graphics: Phoebus") ∧
  r.1 !! 13 = Some (Entry "255").
Proof. repeat split; by_evaluation. Qed.

(** What the entries hold after a refresh: a text that [float] rejects
    leaves the entry empty, and the two interpreters differ on [1_000]. *)
Example update_displays_entries_example :
  let r2 := update_displays (py := example_python2)
              example_lnp_odd_caps tkgui_controls tkgui_widgets_typed in
  let r3 := update_displays (py := example_python3)
              example_lnp_odd_caps tkgui_controls tkgui_widgets_typed in
  r2.2 = Returned tt ∧ r3.2 = Returned tt ∧
  r2.1 !! 13 = Some (Entry "255") ∧ r3.1 !! 13 = Some (Entry "255") ∧
  r2.1 !! 15 = Some (Entry "") ∧ r3.1 !! 15 = Some (Entry "1_000") ∧
  r2.1 !! 16 = Some (Entry "") ∧ r3.1 !! 16 = Some (Entry "").
Proof. repeat split; by_evaluation. Qed.

(** Leaving before the delay is over: the tooltip never shows. *)
Example tooltip_enter_leave :
  let s := tip_run (create_tooltip example_tk "Play the game!")
             [PointerEnter; PointerLeave; TimerDue 0] in
  tipwindow (tooltip s) = None ∧ toplevel_count (tk s) = 0%nat.
Proof. split; reflexivity. Qed.

(** Resting past the delay, then leaving: shown once, then destroyed. *)
Example tooltip_enter_wait_leave :
  let s1 := tip_run (create_tooltip example_tk "Play the game!")
              [PointerEnter; TimerDue 0] in
  let s2 := tip_step s1 PointerLeave in
  anchor s1 = Some (26, 36)%Z ∧
  tipwindow (tooltip s2) = None ∧
  toplevel_count (tk s2) = 1%nat ∧ destroyed (tk s2) = [0%nat].
Proof. repeat split; reflexivity. Qed.

(** Path names of utilities, as the list shows them. *)
Example autorun_row_example :
  autorun_row posixpath example_lnp "dwarftherapist/DwarfTherapist.exe"
  = {| item_text := "dwarftherapist/DwarfTherapist.exe";
       item_values := ("dwarftherapist/DwarfTherapist.exe", "Yes") |}.
Proof. reflexivity. Qed.

(* ===================================================================== *)
(** * Further properties of the refresh *)

(** X1.  However a refresh ends, it creates and destroys no widget and leaves
    to every widget its class and its caption, the text before the first
    colon; only what follows the caption, or the content of an entry,
    changes. *)
Theorem update_displays_keeps_captions {py : Python} (lnp : PyLNP) (controls : dict binding)
    (st : gmap nat widget) (c : nat) :
  caption <$> (update_displays lnp controls st).1 !! c = caption <$> st !! c.
Proof.
  unfold update_displays.
  destruct (for_each (keys controls) (update_display lnp controls) st)
    as [st' r] eqn:Hrun.
  exact (update_displays_captions lnp controls _ _ _ _ Hrun c).
Qed.

(** X2.  A widget that no key of the dictionary is bound to is left exactly
    as it is, however the refresh ends. *)
Theorem update_displays_frame {py : Python} (lnp : PyLNP) (controls : dict binding)
    (st : gmap nat widget) (c : nat) :
  Forall (λ kb : string * binding, target kb.2 ≠ c) controls →
  (update_displays lnp controls st).1 !! c = st !! c.
Proof.
  intros Hfree. unfold update_displays.
  destruct (for_each (keys controls) (update_display lnp controls) st)
    as [st' r] eqn:Hrun. simpl.
  eapply update_displays_untouched; [| exact Hrun].
  intros k b _ Hb. rewrite Forall_forall in Hfree.
  exact (Hfree (k, b) (dict_get_Some_elem _ _ _ Hb)).
Qed.

Lemma update_displays_frame_witness :
  (update_displays (py := example_python2) example_lnp
     [("popcap", Plain 0); ("volume", Plain 13)]
     tkgui_widgets).1 !! 1 = Some (Button "Invaders").
Proof.
  rewrite (update_displays_frame (py := example_python2) example_lnp
             [("popcap", Plain 0); ("volume", Plain 13)] tkgui_widgets 1);
    by_evaluation.
Defined.

Lemma same_captions_alive (st st' : gmap nat widget) c :
  same_captions st st' → is_Some (st !! c) → is_Some (st' !! c).
Proof.
  intros Hcap [w Hw]. specialize (Hcap c). rewrite Hw in Hcap.
  destruct (st' !! c); [by eexists | done].
Qed.

(** One round returns exactly when its control is there and the value to show
    is a text. *)
Lemma update_display_returns_iff {py : Python} lnp controls key (st : gmap nat widget) :
  (update_display lnp controls key st).2 = Returned tt ↔
  ∃ b s, dict_get controls key = Some b ∧
         shown_value lnp key b = PyStr s ∧ is_Some (st !! target b).
Proof.
  rewrite update_display_unfold.
  destruct (dict_get controls key) as [b|]; simpl.
  - destruct (st !! target b) as [w|] eqn:Hw; simpl.
    + destruct (shown_value lnp key b) as [|s] eqn:Hv; simpl.
      * split; [by destruct w |].
        intros (b' & s & [= <-] & Hs & _). congruence.
      * split; [| done]. intros _. exists b, s. by eauto.
    + split; [done |]. intros (b' & s & [= <-] & _ & [w Hw']). congruence.
  - split; [done |]. by intros (b & s & ? & _).
Qed.

Lemma update_displays_returns_criterion {py : Python} (lnp : PyLNP)
    (controls : dict binding) (st : gmap nat widget) :
  (update_displays lnp controls st).2 = Returned tt ↔
  ∀ key b, dict_get controls key = Some b →
           (∃ s, shown_value lnp key b = PyStr s) ∧ is_Some (st !! target b).
Proof.
  unfold update_displays.
  assert (∀ ks (st0 : gmap nat widget),
    (for_each ks (update_display lnp controls) st0).2 = Returned tt ↔
    ∀ key, key ∈ ks →
      ∃ b s, dict_get controls key = Some b ∧
             shown_value lnp key b = PyStr s ∧ is_Some (st0 !! target b))
    as Hks.
  { induction ks as [|k ks IH]; intros st0.
    - split; [intros _ key Hin; by apply elem_of_nil in Hin | done].
    - rewrite for_each_cons.
      pose proof (update_display_returns_iff lnp controls k st0) as Hk.
      destruct (update_display lnp controls k st0) as [sa [[]|e]] eqn:Hstep;
        simpl in Hk.
      + rewrite IH. split.
        * intros Hall key [->|Hin]%elem_of_cons; [by apply Hk |].
          destruct (Hall key Hin) as (b & s & Hb & Hs & Halive).
          exists b, s. repeat split; try done.
          eapply same_captions_alive; [| exact Halive].
          by eapply update_display_captions.
        * intros Hall key Hin.
          destruct (Hall key (list_elem_of_further _ _ _ Hin))
            as (b & s & Hb & Hs & Halive).
          exists b, s. repeat split; try done.
          eapply same_captions_alive; [| exact Halive].
          apply same_captions_sym. by eapply update_display_captions.
      + simpl. split; [done |]. intros Hall.
        apply Hk, Hall, list_elem_of_here. }
  rewrite Hks. split.
  - intros Hall key b Hb.
    destruct (Hall key) as (b' & s & Hb' & Hs & Halive).
    { apply list_elem_of_fmap. exists (key, b).
      split; [done | by apply dict_get_Some_elem]. }
    rewrite Hb in Hb'. injection Hb' as <-. by eauto.
  - intros Hall key Hin.
    apply list_elem_of_fmap in Hin as ([k b0] & -> & Hin). simpl.
    destruct (dict_get controls k) as [b|] eqn:Hb.
    + destruct (Hall k b Hb) as [[s Hs] Halive]. by eauto.
    + exfalso. clear -Hin Hb. induction controls as [|[k' b'] d IH];
        [by apply elem_of_nil in Hin |].
      simpl in Hb. destruct (String.eqb_spec k' k) as [->|Hne]; [done |].
      apply elem_of_cons in Hin as [[= -> ->]|Hin]; [done | by apply IH].
Qed.

(** X3.  The refresh returns normally exactly when every key has a text to
    show (its setting, or what its function makes of the setting or of
    [None]) and a control that still exists; in every other case it raises. *)
Theorem update_displays_returns_iff {py : Python} (lnp : PyLNP) (controls : dict binding)
    (st : gmap nat widget) :
  (update_displays lnp controls st).2 = Returned tt ↔
  ∀ key b, dict_get controls key = Some b →
           (∃ s, shown_value lnp key b = PyStr s) ∧ is_Some (st !! target b).
Proof. apply update_displays_returns_criterion. Qed.

(** In the interface as it is built, no two keys share a control. *)
Lemma tkgui_controls_alone :
  Forall (λ kb : string * binding,
            drives_alone tkgui_controls kb.1 (target kb.2)) tkgui_controls.
Proof. apply (bool_decide_unpack _). by vm_compute. Qed.

(** X4.  For the dictionary that the interface builds (27 keys), whatever the
    launcher holds and whatever the widgets showed: after a refresh that
    returns, every control shows the text of its own key: a button or a label
    after its caption, an entry alone when [validate_number] accepts the text,
    and an entry is empty when it does not. *)
Theorem tkgui_refresh_shows_every_key {py : Python} (lnp : PyLNP)
    (st st' : gmap nat widget) (key : string) (b : binding) (w : widget) :
  dict_get tkgui_controls key = Some b →
  st !! target b = Some w →
  update_displays lnp tkgui_controls st = (st', Returned tt) →
  ∃ s, shown_value lnp key b = PyStr s ∧
       st' !! target b = Some (written w s) ∧
       display (written w s) =
         (if is_Entry w then (if validate_number s then s else "")
          else split_colon_0 (display w) ++ ": " ++ s).
Proof.
  intros Hb Hw Hrun.
  assert ((update_displays lnp tkgui_controls st).2 = Returned tt) as Hret
    by (by rewrite Hrun).
  destruct (proj1 (update_displays_returns_criterion lnp tkgui_controls st)
              Hret key b Hb) as [[s Hs] _].
  exists s. split; [done |]. split; [| by destruct w].
  apply (update_displays_shows lnp tkgui_controls st st' key b w s);
    try done; [apply tkgui_controls_NoDup |].
  pose proof tkgui_controls_alone as Hall. rewrite Forall_forall in Hall.
  exact (Hall (key, b) (dict_get_Some_elem _ _ _ Hb)).
Qed.

Lemma tkgui_refresh_shows_every_key_witness :
  ∃ s, shown_value example_lnp_odd_caps "gpsCap" (Plain 16) = PyStr s ∧
       (update_displays (py := example_python3)
          example_lnp_odd_caps tkgui_controls tkgui_widgets_typed).1 !! 16
       = Some (written (py := example_python3) (Entry "30") s) ∧
       display (written (py := example_python3) (Entry "30") s) =
         (if validate_number (py := example_python3) s then s else "").
Proof.
  apply (tkgui_refresh_shows_every_key (py := example_python3)
           example_lnp_odd_caps tkgui_widgets_typed _
           "gpsCap" (Plain 16) (Entry "30")); by_evaluation.
Defined.

(** Once the widgets are destroyed, a refresh fails at its first key. *)
Lemma update_displays_destroyed {py : Python} lnp (controls : dict binding) :
  controls ≠ [] →
  update_displays lnp controls ∅ = (∅, Raised TclError).
Proof.
  destruct controls as [|[k b] d]; [done |]. intros _.
  unfold update_displays, keys. rewrite fmap_cons, for_each_cons.
  rewrite update_display_unfold. simpl. rewrite String.eqb_refl.
  by rewrite lookup_empty.
Qed.

(** X5.  When the launcher cannot read the configuration, what [load_params]
    does depends on the interpreter.  Under Python 2 it shows the message and
    destroys the window, and then still runs the refresh: with any control in
    the dictionary this raises [TclError] on the widgets that are gone.
    Under Python 3 the handler raises [AttributeError] when it reads
    [e.message]: no message is shown, the window and its widgets stay as
    they are, and the refresh does not run. *)
Theorem load_params_after_failure {py : Python}
    (lnp_load_params : PyLNP → PyLNP * option string)
    (controls : dict binding) (self : TkGui) (lnp' : PyLNP)
    (message : string) :
  controls ≠ [] →
  lnp_load_params (self_lnp self) = (lnp', Some message) →
  load_params lnp_load_params controls self =
  if is_python3
  then ({| self_lnp := lnp'; self_widgets := self_widgets self;
           self_errors := self_errors self |}, Raised AttributeError)
  else ({| self_lnp := lnp'; self_widgets := ∅;
           self_errors := self_errors self ++ [message] |}, Raised TclError).
Proof.
  intros Hne Hfail. unfold load_params. rewrite Hfail.
  destruct is_python3; simpl; [done |].
  by rewrite (update_displays_destroyed lnp' controls Hne).
Qed.

Lemma load_params_after_failure_witness :
  load_params (py := example_python2)
    (λ l, (l, Some "init.txt: No such file")) tkgui_controls
    {| self_lnp := example_lnp; self_widgets := tkgui_widgets;
       self_errors := [] |} =
  ({| self_lnp := example_lnp; self_widgets := ∅;
      self_errors := ["init.txt: No such file"] |}, Raised TclError) ∧
  load_params (py := example_python3)
    (λ l, (l, Some "init.txt: No such file")) tkgui_controls
    {| self_lnp := example_lnp; self_widgets := tkgui_widgets;
       self_errors := [] |} =
  ({| self_lnp := example_lnp; self_widgets := tkgui_widgets;
      self_errors := [] |}, Raised AttributeError).
Proof.
  split.
  - apply (load_params_after_failure (py := example_python2)
             (λ l, (l, Some "init.txt: No such file")) tkgui_controls
             {| self_lnp := example_lnp; self_widgets := tkgui_widgets;
                self_errors := [] |} example_lnp "init.txt: No such file").
    + discriminate.
    + reflexivity.
  - apply (load_params_after_failure (py := example_python3)
             (λ l, (l, Some "init.txt: No such file")) tkgui_controls
             {| self_lnp := example_lnp; self_widgets := tkgui_widgets;
                self_errors := [] |} example_lnp "init.txt: No such file").
    + discriminate.
    + reflexivity.
Defined.

(* ===================================================================== *)
(** * Further properties of tooltips *)

Lemma text_eqb_empty (t : string) : String.eqb t "" = false ↔ t ≠ "".
Proof. by destruct (String.eqb_spec t ""). Qed.

Lemma showtip_tip_ok s : tip_ok s → tip_ok (ToolTipM.showtip s).
Proof.
  unfold tip_ok, ToolTipM.showtip. simpl.
  destruct (tipwindow (tooltip s)) as [w|] eqn:Hw; simpl.
  - by intros (_ & ? & ?).
  - destruct (String.eqb_spec (text (tooltip s)) "") as [He|Hne]; simpl.
    + by right.
    + done.
Qed.

Lemma hidetip_tip_ok s : tip_ok (ToolTipM.hidetip s).
Proof.
  unfold tip_ok, ToolTipM.hidetip.
  destruct (tipwindow (tooltip s)); simpl; by left.
Qed.

Lemma settext_tip_ok new_text s : tip_ok s → tip_ok (ToolTipM.settext new_text s).
Proof.
  intros Hok. unfold ToolTipM.settext.
  destruct (String.eqb new_text (text (tooltip s))); [done |]. simpl.
  destruct (active (tooltip s)) eqn:Hact.
  - apply showtip_tip_ok, hidetip_tip_ok.
  - revert Hok. unfold tip_ok. simpl. rewrite Hact.
    destruct (tipwindow (tooltip s)); [by intros [? _] | by left].
Qed.

Lemma tip_ok_tooltip s s' :
  tipwindow (tooltip s') = tipwindow (tooltip s) →
  active (tooltip s') = active (tooltip s) →
  text (tooltip s') = text (tooltip s) →
  tip_ok s → tip_ok s'.
Proof. unfold tip_ok. by intros -> -> ->. Qed.

Lemma tip_step_tip_ok s e : tip_ok s → tip_ok (tip_step s e).
Proof.
  intros Hok. destruct e as [| |id|x y|new_text]; simpl.
  - unfold enter, after. by destruct (event (tooltip s)).
  - unfold leave. destruct (event (tooltip s)); apply hidetip_tip_ok.
  - unfold timer_due. case_bool_decide; [| done]. by apply showtip_tip_ok.
  - done.
  - by apply settext_tip_ok.
Qed.

Lemma tip_run_tip_ok s es : tip_ok s → tip_ok (tip_run s es).
Proof.
  revert s. unfold tip_run.
  induction es as [|e es IH]; intros s Hok; simpl; [done |].
  apply IH. by apply tip_step_tip_ok.
Qed.

Lemma create_tooltip_tip_ok k text0 : tip_ok (create_tooltip k text0).
Proof. by left. Qed.

(** X6.  Whatever happens to a tooltip, its window is on screen exactly when
    the tooltip is active and its text is not empty, and the window then
    carries the current text of the tooltip. *)
Theorem tooltip_window_current (k : Tk) (text0 : string)
    (es : list tip_event) :
  let s := tip_run (create_tooltip k text0) es in
  match tipwindow (tooltip s) with
  | Some w =>
      active (tooltip s) = true ∧ tw_text w = text (tooltip s) ∧
      text (tooltip s) ≠ ""
  | None => active (tooltip s) = false ∨ text (tooltip s) = ""
  end.
Proof. apply tip_run_tip_ok, create_tooltip_tip_ok. Qed.

(** ** Leaving hides the tooltip for good *)

Lemma tip_step_quiet s e :
  e ≠ PointerEnter → tip_quiet s → tip_quiet (tip_step s e).
Proof.
  intros He (Hq & Hact & Hwin).
  destruct e as [| |id|x y|new_text]; simpl; [done | | | done |].
  - unfold leave, ToolTipM.hidetip, tip_quiet.
    destruct (event (tooltip s)); simpl; rewrite Hwin; simpl;
      rewrite ?Hq; done.
  - unfold timer_due. rewrite Hq.
    rewrite bool_decide_eq_false_2; [done | apply not_elem_of_nil].
  - unfold ToolTipM.settext, tip_quiet.
    destruct (String.eqb new_text (text (tooltip s))); [done |]. simpl.
    by rewrite Hact.
Qed.

Lemma tip_run_quiet s es :
  PointerEnter ∉ es → tip_quiet s → tip_quiet (tip_run s es).
Proof.
  revert s. unfold tip_run.
  induction es as [|e es IH]; intros s Hes Hq; simpl; [done |].
  apply not_elem_of_cons in Hes as [He Hes].
  apply IH; [done |]. by apply tip_step_quiet.
Qed.

Lemma leave_quiet s : timers_ok s → tip_quiet (leave s).
Proof.
  intros Hok. split; [by apply leave_queue |].
  unfold leave. destruct (event (tooltip s)); unfold ToolTipM.hidetip; simpl;
    by destruct (tipwindow (tooltip s)).
Qed.

(** While no timer comes due, a tooltip that is not active stays hidden. *)
Lemma tip_step_hidden q s e :
  is_timer_due e = false → hidden_since q s → hidden_since q (tip_step s e).
Proof.
  intros He (Hact & Hwin & Hcount & Hdes).
  destruct e as [| |id|x y|new_text]; simpl; [| | done | done |].
  - unfold enter, after, hidden_since.
    by destruct (event (tooltip s)).
  - unfold leave, ToolTipM.hidetip, hidden_since.
    destruct (event (tooltip s)); simpl; by rewrite Hwin.
  - unfold ToolTipM.settext, hidden_since.
    destruct (String.eqb new_text (text (tooltip s))); [done |]. simpl.
    by rewrite Hact.
Qed.

Lemma tip_run_hidden q s es :
  Forall (λ e, is_timer_due e = false) es →
  hidden_since q s → hidden_since q (tip_run s es).
Proof.
  revert s. unfold tip_run.
  induction es as [|e es IH]; intros s Hes Hh; simpl; [done |].
  apply Forall_cons in Hes as [He Hes].
  apply IH; [done |]. by apply tip_step_hidden.
Qed.

(** With nothing pending, timers change nothing either. *)
Lemma tip_run_quiet_hidden q s es :
  PointerEnter ∉ es → tip_quiet s → hidden_since q s →
  hidden_since q (tip_run s es).
Proof.
  revert s. unfold tip_run.
  induction es as [|e es IH]; intros s Hes Hq Hh; simpl; [done |].
  apply not_elem_of_cons in Hes as [He Hes].
  apply IH; [done | by apply tip_step_quiet |].
  destruct (is_timer_due e) eqn:Hdue; [| by apply tip_step_hidden].
  destruct e as [| |id|x y|new_text]; try done. simpl.
  unfold timer_due. destruct Hq as (-> & _).
  rewrite bool_decide_eq_false_2; [done | apply not_elem_of_nil].
Qed.

(** X7.  No tooltip appears before its delay is over, nor after the pointer
    has left.  Before the pointer first enters the widget, and after it has
    left it, nothing is shown and nothing is pending, whatever else happens
    (timers that come due, movements, new texts), until the pointer enters
    again.  From a moment when the tooltip is not active (before the pointer
    first enters, after it has left), whatever happens before a timer comes
    due, the pointer entering included, shows no window and creates none;
    when the pointer then leaves, nothing is pending any more, and still no
    window was created: entering and leaving before the delay is over never
    shows the tooltip. *)
Theorem tooltip_hidden_until_enter (k : Tk) (text0 : string)
    (es mid rest : list tip_event) :
  let s := tip_run (create_tooltip k text0) es in
  Forall (λ e, is_timer_due e = false) mid →
  PointerEnter ∉ rest →
  tip_quiet (tip_run (create_tooltip k text0) rest) ∧
  tip_quiet (tip_run (leave s) rest) ∧
  (active (tooltip s) = false →
   hidden_since s (tip_run s mid) ∧
   tip_quiet (tip_run s (mid ++ PointerLeave :: rest)) ∧
   hidden_since s (tip_run s (mid ++ PointerLeave :: rest))).
Proof.
  intros s Hmid Hrest. split; [by apply tip_run_quiet |]. split.
  { apply tip_run_quiet; [done |]. by apply leave_quiet, tip_run_timers_ok. }
  intros Hact.
  assert (hidden_since s s) as Hs.
  { pose proof (tip_run_tip_ok (create_tooltip k text0) es
                  (create_tooltip_tip_ok k text0)) as Hok.
    fold s in Hok. unfold tip_ok in Hok. unfold hidden_since.
    destruct (tipwindow (tooltip s)); [| done].
    destruct Hok as [Hon _]. congruence. }
  pose proof (tip_run_hidden s s mid Hmid Hs) as Hm.
  assert (timers_ok (tip_run s mid)) as Hok
    by by apply tip_run_timers_ok, tip_run_timers_ok.
  assert (tip_run s (mid ++ PointerLeave :: rest)
          = tip_run (leave (tip_run s mid)) rest) as ->
    by (unfold tip_run; by rewrite fold_left_app).
  split; [done |]. split.
  - apply tip_run_quiet; [done |]. by apply leave_quiet.
  - apply tip_run_quiet_hidden; [done | by apply leave_quiet |].
    by apply (tip_step_hidden s (tip_run s mid) PointerLeave).
Qed.

Lemma tooltip_hidden_until_enter_witness :
  let s := tip_run (create_tooltip example_tk "Play the game!")
             [PointerEnter; TimerDue 0; PointerLeave] in
  let s' := tip_run s [PointerEnter; PointerMotion 3 4; SetText "Play!";
                       PointerEnter; PointerLeave; TimerDue 1; TimerDue 2;
                       SetText "Play the game!"] in
  tipwindow (tooltip s') = None ∧ after_queue (tk s') = [] ∧
  toplevel_count (tk s') = 1%nat.
Proof.
  destruct (tooltip_hidden_until_enter example_tk "Play the game!"
    [PointerEnter; TimerDue 0; PointerLeave]
    [PointerEnter; PointerMotion 3 4; SetText "Play!"; PointerEnter]
    [TimerDue 1; TimerDue 2; SetText "Play the game!"]
    ltac:(by_evaluation) ltac:(by_evaluation))
    as (_ & _ & Hrun).
  destruct (Hrun eq_refl) as (_ & (Hq & _ & Hwin) & (_ & _ & Hcount & _)).
  split; [exact Hwin | split; [exact Hq | exact Hcount]].
Defined.

(** ** Windows are not lost *)

Lemma showtip_balanced k s :
  windows_balanced k s → windows_balanced k (ToolTipM.showtip s).
Proof.
  unfold windows_balanced, ToolTipM.showtip. simpl.
  destruct (tipwindow (tooltip s)) as [w|] eqn:Hw; simpl.
  - done.
  - destruct (String.eqb (text (tooltip s)) ""); simpl; [done |].
    lia.
Qed.

Lemma hidetip_balanced k s :
  windows_balanced k s → windows_balanced k (ToolTipM.hidetip s).
Proof.
  unfold windows_balanced, ToolTipM.hidetip.
  destruct (tipwindow (tooltip s)); simpl; lia.
Qed.

Lemma settext_balanced k new_text s :
  windows_balanced k s → windows_balanced k (ToolTipM.settext new_text s).
Proof.
  intros Hb. unfold ToolTipM.settext.
  destruct (String.eqb new_text (text (tooltip s))); [done |]. simpl.
  destruct (active (tooltip s)); [| done].
  by apply showtip_balanced, hidetip_balanced.
Qed.

Lemma tip_step_balanced k s e :
  windows_balanced k s → windows_balanced k (tip_step s e).
Proof.
  intros Hb. destruct e as [| |id|x y|new_text]; simpl.
  - unfold enter, after. by destruct (event (tooltip s)).
  - unfold leave. destruct (event (tooltip s)); by apply hidetip_balanced.
  - unfold timer_due. case_bool_decide; [| done]. by apply showtip_balanced.
  - done.
  - by apply settext_balanced.
Qed.

(** X8.  A tooltip never loses a window: at any time the windows it has
    created are those it has destroyed plus, at most, the one window it shows
    now. *)
Theorem tooltip_windows_balanced (k : Tk) (text0 : string)
    (es : list tip_event) :
  let s := tip_run (create_tooltip k text0) es in
  toplevel_count (tk s) + length (destroyed k) =
  toplevel_count k + length (destroyed (tk s)) +
  match tipwindow (tooltip s) with Some _ => 1 | None => 0 end.
Proof.
  simpl. change (windows_balanced k (tip_run (create_tooltip k text0) es)).
  assert (windows_balanced k (create_tooltip k text0)) as Hinit
    by (unfold windows_balanced; simpl; lia).
  revert Hinit. generalize (create_tooltip k text0). unfold tip_run.
  induction es as [|e es IH]; intros s Hb; simpl; [done |].
  apply IH. by apply tip_step_balanced.
Qed.

(** ** What a new text shows *)

Lemma settext_shown_text new_text s :
  tip_ok s →
  shown_text (ToolTipM.settext new_text s) =
  if active (tooltip s) && negb (String.eqb new_text "")
  then Some new_text else None.
Proof.
  unfold tip_ok, shown_text, ToolTipM.settext.
  destruct (String.eqb_spec new_text (text (tooltip s))) as [->|Hne].
  - destruct (tipwindow (tooltip s)) as [w|]; simpl.
    + intros (-> & -> & Ht). apply text_eqb_empty in Ht. by rewrite Ht.
    + intros [->| ->]; [done |]. by rewrite andb_false_r.
  - simpl. destruct (active (tooltip s)) eqn:Hact; simpl.
    + intros _. unfold ToolTipM.hidetip, ToolTipM.showtip.
      destruct (tipwindow (tooltip s)); simpl;
        by destruct (String.eqb new_text "").
    + destruct (tipwindow (tooltip s)); [by intros [? _] | done].
Qed.

(** X9.  When the pointer moves over the list of hacks, over no hack the
    text of the tooltip of the list becomes empty, over a hack that has a
    [tooltip] entry it becomes that entry, and the tooltip then shows exactly
    that text if it is active and the text is not empty, and nothing
    otherwise.  Over a hack without a [tooltip] entry the handler raises
    [KeyError] and the tooltip stays as it was, with its former text. *)
Theorem update_hack_tooltip_shows (k : Tk) (text0 : string)
    (es : list tip_event) (item : option hack) :
  let s := tip_run (create_tooltip k text0) es in
  match match item with Some h => hack_tooltip h | None => Some "" end with
  | Some t =>
      ∃ s',
        update_hack_tooltip item s = (s', Returned tt) ∧
        text (tooltip s') = t ∧
        shown_text s' =
          if active (tooltip s) && negb (String.eqb t "")
          then Some t else None
  | None => update_hack_tooltip item s = (s, Raised KeyError)
  end.
Proof.
  intros s.
  assert (tip_ok s) as Hok by apply tip_run_tip_ok, create_tooltip_tip_ok.
  destruct (match item with Some h => hack_tooltip h | None => Some "" end)
    as [t|] eqn:Ht.
  - exists (ToolTipM.settext t s). split; [| split].
    + unfold update_hack_tooltip. destruct item as [h|].
      * by rewrite Ht.
      * by injection Ht as <-.
    + unfold ToolTipM.settext.
      destruct (String.eqb_spec t (text (tooltip s))) as [->|Hne]; [done |].
      simpl. destruct (active (tooltip s)); [| done].
      unfold ToolTipM.hidetip, ToolTipM.showtip.
      destruct (tipwindow (tooltip s)); simpl;
        by destruct (String.eqb t "").
    + by apply settext_shown_text.
  - unfold update_hack_tooltip. destruct item as [h|]; [| done].
    by rewrite Ht.
Qed.

(** Over a hack without a [tooltip] entry, the tooltip of the hack before
    stays on screen. *)
Example update_hack_tooltip_stale :
  let s := tip_run (create_tooltip example_tk "")
             [PointerEnter; SetText "Allows mouse use"; TimerDue 0] in
  shown_text s = Some "Allows mouse use" ∧
  update_hack_tooltip
    (Some {| hack_enabled := Some true; hack_tooltip := None |}) s
  = (s, Raised KeyError).
Proof. split; reflexivity. Qed.

(* ===================================================================== *)
(** * Further properties of the list views *)

(** X10.  A refresh of the list of utilities gives every row a new
    identifier: no identifier of a row from before the refresh names a row
    afterwards (so a selection does not survive it), while a second refresh
    from the same [progs] shows the same rows again. *)
Theorem update_autorun_list_new_rows (path : os_path) (lnp : PyLNP)
    (progs : list string) (tv : Treeview) :
  tree_ok tv →
  let tv1 := (update_autorun_list path lnp progs tv).1 in
  let tv2 := (update_autorun_list path lnp progs tv1).1 in
  Forall (λ i, i ∉ (tree_children tv1).*1) (tree_children tv).*1 ∧
  Forall (λ i, i ∉ (tree_children tv2).*1) (tree_children tv1).*1 ∧
  rows tv2 = rows tv1.
Proof.
  intros Hok tv1 tv2. subst tv2 tv1.
  rewrite (update_autorun_list_result path lnp progs tv Hok). simpl.
  assert (tree_ok
    {| tree_children :=
         zip (seq (tree_count tv) (length progs))
             (autorun_row path lnp <$> progs);
       tree_count := tree_count tv + length progs |}) as Hok1
    by apply tree_ok_after_insert.
  rewrite (update_autorun_list_result path lnp progs _ Hok1). simpl.
  pose proof (rows_after_insert [] (tree_count tv) progs
                (autorun_row path lnp)) as Hr1.
  pose proof (rows_after_insert [] (tree_count tv + length progs) progs
                (autorun_row path lnp)) as Hr2.
  simpl in Hr1, Hr2. rewrite Hr1, Hr2.
  rewrite !fst_zip by (by rewrite length_seq, length_fmap).
  split; [| split; [| done]].
  - destruct Hok as [_ Hlt]. eapply Forall_impl; [exact Hlt |].
    intros i Hi Hin%elem_of_seq. simpl in Hi. lia.
  - apply Forall_forall. intros i Hi%elem_of_seq Hin%elem_of_seq. lia.
Qed.

Lemma update_autorun_list_new_rows_witness :
  let tv1 := (update_autorun_list posixpath example_lnp
                ["soundsense/soundSense.sh"] example_tree).1 in
  (tree_children example_tree).*1 = [0; 1] ∧
  (tree_children tv1).*1 = [2] ∧
  Forall (λ i, i ∉ (tree_children tv1).*1) (tree_children example_tree).*1.
Proof.
  split; [reflexivity |]. split; [reflexivity |].
  exact (proj1 (update_autorun_list_new_rows posixpath example_lnp
                  ["soundsense/soundSense.sh"] example_tree
                  ltac:(by_evaluation))).
Defined.

(* ===================================================================== *)
(** * The update notice *)

Lemma list_index_None {A} `{EqDecision A} (x : A) (l : list A) :
  x ∉ l → list_index x l = None.
Proof.
  induction l as [|y l IH]; [done |]. intros [Hy Hl]%not_elem_of_cons.
  simpl. destruct (decide (y = x)); [done |]. by rewrite IH.
Qed.

Lemma list_index_Some {A} `{EqDecision A} (x : A) (l : list A) i :
  list_index x l = Some i → l !! i = Some x.
Proof.
  revert i. induction l as [|y l IH]; intros i; [done |]. simpl.
  destruct (decide (y = x)) as [->|Hne]; [by intros [= <-] |].
  destruct (list_index x l) as [j|]; [| done].
  intros [= <-]. by apply IH.
Qed.

(** X11.  When the user closes the update notice without touching the menu,
    the launcher is told to check again after the number of days that was
    configured, if that number is one of 0, 1, 3, 7, 14 and 30, and after 0
    days ("next launch") for every other configured number; no lookup of the
    window raises. *)
Theorem UpdateWindow_untouched (updateDays : Z) :
  ∃ var,
    UpdateWindow_init updateDays = Some var ∧
    UpdateWindow_close var =
      Some (if bool_decide (updateDays ∈ update_days) then updateDays else 0%Z).
Proof.
  destruct (decide (updateDays ∈ update_days)) as [Hin|Hout].
  - rewrite (bool_decide_eq_true_2 _ Hin).
    unfold update_days in Hin.
    repeat (apply elem_of_cons in Hin as [->|Hin]; [by eexists |]).
    by apply elem_of_nil in Hin.
  - rewrite (bool_decide_eq_false_2 _ Hout).
    unfold UpdateWindow_init. rewrite (list_index_None _ _ Hout).
    by eexists.
Qed.

(** X12.  Closing the update notice succeeds exactly for the six texts of its
    menu, and then hands over a number of days from the table; different
    texts give different numbers. *)
Theorem UpdateWindow_close_options (var : string) :
  (is_Some (UpdateWindow_close var) ↔ var ∈ update_options) ∧
  ∀ var' d,
    UpdateWindow_close var = Some d →
    UpdateWindow_close var' = Some d →
    d ∈ update_days ∧ var' = var.
Proof.
  assert (∀ v d, UpdateWindow_close v = Some d →
            (v, d) ∈ zip update_options update_days) as Hinv.
  { intros v d. unfold UpdateWindow_close, update_options. simpl.
    repeat (case_decide; [subst v; intros [= <-]; set_solver |]).
    done. }
  split.
  - split.
    + intros [d Hd]. apply Hinv in Hd.
      apply elem_of_zip_l in Hd. exact Hd.
    + unfold update_options. intros Hin.
      repeat (apply elem_of_cons in Hin as [->|Hin]; [by eexists |]).
      by apply elem_of_nil in Hin.
  - intros var' d Hd Hd'. apply Hinv in Hd. apply Hinv in Hd'.
    split; [by apply elem_of_zip_r in Hd |].
    unfold update_options, update_days in Hd, Hd'. simpl in Hd, Hd'.
    repeat (apply elem_of_cons in Hd as [[= -> ->]|Hd];
      [repeat (apply elem_of_cons in Hd' as [Heq|Hd']; [by simplify_eq |]);
       by apply elem_of_nil in Hd' |]).
    by apply elem_of_nil in Hd.
Qed.

Lemma UpdateWindow_close_options_witness :
  7%Z ∈ update_days ∧ "7 days" = "7 days".
Proof.
  exact (proj2 (UpdateWindow_close_options "7 days") "7 days" 7%Z
           eq_refl eq_refl).
Defined.

(* ===================================================================== *)
(** * Choosing the game folder *)

(** X13.  While the window for choosing the game folder is open its result
    is the empty text; once it is closed the result is the empty text (the
    window was closed, or never had a row selected) or one of the folders
    that were offered. *)
Theorem SelectDF_result (folders : list string) (es : list select_event) :
  let self := select_run (SelectDF_init folders) es in
  sd_folders self = folders ∧
  (if sd_top self then sd_result self = ""
   else sd_result self = "" ∨ sd_result self ∈ folders).
Proof.
  simpl.
  assert (∀ self,
    (sd_folders self = folders ∧
     (if sd_top self then sd_result self = ""
      else sd_result self = "" ∨ sd_result self ∈ folders)) →
    ∀ e, (sd_folders (select_step self e) = folders ∧
      (if sd_top (select_step self e) then sd_result (select_step self e) = ""
       else sd_result (select_step self e) = "" ∨
            sd_result (select_step self e) ∈ folders))) as Hstep.
  { intros self [Hf Hr] e. unfold select_step.
    destruct (sd_top self) eqn:Htop; [| by rewrite Htop].
    destruct e as [i| |]; simpl.
    - case_bool_decide; simpl; by rewrite ?Htop.
    - unfold SelectDF_ok. destruct (sd_curselection self) as [|i l]; simpl.
      + by rewrite Htop.
      + split; [done |]. unfold folderlist_get. rewrite Hf.
        destruct (folders !! i) as [f|] eqn:Hi; simpl; [| by left].
        right. by eapply list_elem_of_lookup_2.
    - split; [done |]. by left. }
  assert (sd_folders (SelectDF_init folders) = folders ∧
     (if sd_top (SelectDF_init folders)
      then sd_result (SelectDF_init folders) = ""
      else sd_result (SelectDF_init folders) = "" ∨
           sd_result (SelectDF_init folders) ∈ folders)) as Hinit by done.
  revert Hinit. generalize (SelectDF_init folders). unfold select_run.
  induction es as [|e es IH]; intros self Hinv; simpl; [done |].
  apply IH. by apply Hstep.
Qed.

(* ===================================================================== *)
(** * Saving key bindings *)

Lemma endswith_app (v suffix : string) : endswith (v ++ suffix) suffix = true.
Proof.
  induction v as [|c v IH]; simpl.
  - destruct suffix; simpl; by rewrite ?Ascii.eqb_refl, ?String.eqb_refl.
  - rewrite IH. apply orb_true_r.
Qed.

(** X14.  [save_keybinds] saves under a name that ends in ".txt": exactly the
    name the user typed when that ends in ".txt", and exactly that name with
    ".txt" added when it does not.  A file of that name that exists is only
    overwritten when the user agreed, and the list of key bindings is read
    again after every save. *)
Theorem save_keybinds_name (askstring : option string)
    (keybind_exists : string → bool) (askyesno : bool) (name : string) :
  Save_keybinds name ∈ save_keybinds askstring keybind_exists askyesno →
  endswith name ".txt" = true ∧
  (keybind_exists name = true → askyesno = true) ∧
  (∃ v, askstring = Some v ∧
        name = (if endswith v ".txt" then v else v ++ ".txt")) ∧
  save_keybinds askstring keybind_exists askyesno
    = [Save_keybinds name; Read_keybinds].
Proof.
  unfold save_keybinds. destruct askstring as [v|];
    [| by intros ?%elem_of_nil].
  destruct (endswith v ".txt") eqn:Hext; simpl.
  - destruct (negb (keybind_exists v) || askyesno) eqn:Hgo;
      [| by intros ?%elem_of_nil].
    intros [[= ->]|Hin]%elem_of_cons;
      [| apply list_elem_of_singleton in Hin; discriminate Hin].
    repeat split; [done | | exists v; by rewrite Hext].
    intros Hex. rewrite Hex in Hgo. exact Hgo.
  - destruct (negb (keybind_exists (v ++ ".txt")) || askyesno) eqn:Hgo;
      [| by intros ?%elem_of_nil].
    intros [[= ->]|Hin]%elem_of_cons;
      [| apply list_elem_of_singleton in Hin; discriminate Hin].
    repeat split; [apply endswith_app | | exists v; by rewrite Hext].
    intros Hex. rewrite Hex in Hgo. exact Hgo.
Qed.

Lemma save_keybinds_name_witness :
  (∃ v, Some "vim" = Some v ∧
        "vim.txt" = (if endswith v ".txt" then v else v ++ ".txt")) ∧
  save_keybinds (Some "vim") (λ name, String.eqb name "vim.txt") true
    = [Save_keybinds "vim.txt"; Read_keybinds].
Proof.
  exact (proj2 (proj2 (save_keybinds_name (Some "vim")
           (λ name, String.eqb name "vim.txt") true "vim.txt"
           ltac:(by_evaluation)))).
Defined.

(** A name that ends in ".txt" is kept as it is. *)
Example save_keybinds_keeps_txt :
  save_keybinds (Some "vim.txt") (λ _, false) false
    = [Save_keybinds "vim.txt"; Read_keybinds] ∧
  save_keybinds (Some "vim.txt") (λ _, true) false = [].
Proof. split; reflexivity. Qed.

(* ===================================================================== *)
(** * The preview of a colour scheme *)



Lemma hex2_below_256 :
  forallb (λ n, match hex2 (N.of_nat n) with
                | String a (String b EmptyString) =>
                    bool_decide (hex_value (String a (String b EmptyString))
                                 = Some (N.of_nat n))
                | _ => false
                end) (seq 0 256) = true.
Proof. by vm_compute. Qed.

Lemma hex2_two_digits (n : N) :
  (n < 256)%N →
  ∃ a b, hex2 n = String a (String b EmptyString) ∧
         hex_value (hex2 n) = Some n.
Proof.
  intros Hn. pose proof hex2_below_256 as Hall.
  rewrite forallb_forall in Hall.
  specialize (Hall (N.to_nat n)). rewrite N2Nat.id in Hall.
  assert (In (N.to_nat n) (seq 0 256)) as Hin by (apply in_seq; lia).
  specialize (Hall Hin).
  destruct (hex2 n) as [|a [|b [|? ?]]]; try done.
  exists a, b. split; [done |]. by apply bool_decide_eq_true_1 in Hall.
Qed.

(** X16.  For a colour whose parts are below 256, the fill of its square is
    a number sign and six hexadecimal digits, and different colours get
    different fills. *)
Theorem color_fill_format (c c' : N * N * N) :
  color_ok c →
  color_ok c' →
  String.length (color_fill c) = 7%nat ∧
  (color_fill c = color_fill c' → c = c').
Proof.
  destruct c as [[r g] b], c' as [[r' g'] b'].
  intros (Hr & Hg & Hb) (Hr' & Hg' & Hb'). simpl in *.
  unfold color_fill. simpl.
  destruct (hex2_two_digits r Hr) as (r1 & r2 & Er & Vr).
  destruct (hex2_two_digits g Hg) as (g1 & g2 & Eg & Vg).
  destruct (hex2_two_digits b Hb) as (b1 & b2 & Eb & Vb).
  destruct (hex2_two_digits r' Hr') as (r1' & r2' & Er' & Vr').
  destruct (hex2_two_digits g' Hg') as (g1' & g2' & Eg' & Vg').
  destruct (hex2_two_digits b' Hb') as (b1' & b2' & Eb' & Vb').
  rewrite Er, Eg, Eb, Er', Eg', Eb' in *. simpl. split; [done |].
  intros [= -> -> -> -> -> ->].
  rewrite Vr' in Vr. rewrite Vg' in Vg. rewrite Vb' in Vb.
  by simplify_eq.
Qed.

Lemma color_fill_format_witness :
  color_fill (192, 192, 192)%N = "#c0c0c0" ∧
  String.length (color_fill (192, 192, 192)%N) = 7%nat.
Proof.
  split; [reflexivity |].
  exact (proj1 (color_fill_format (192, 192, 192)%N (0, 0, 255)%N
                  ltac:(by_evaluation) ltac:(by_evaluation))).
Defined.

(* ===================================================================== *)
(** * The editor of the init files *)

(** X17.  Saving from the editor right after loading does not write back what
    was read: each of the two files gets the text that was read from it
    followed by one more line feed, because the text is taken from the
    widget up to the index ['end']. *)
Theorem InitEditor_load_save (G : Type)
    (gui_save_params gui_load_params :
       G * gmap string string → G * gmap string string)
    (init_path d_init_path : string)
    (w w1 : G * gmap string string) (self self1 : InitEditor) :
  InitEditor_load G gui_save_params init_path d_init_path w self
    = (w1, self1, IO_returned) →
  ∃ c d,
    w1 = gui_save_params w ∧
    w1.2 !! init_path = Some c ∧
    w1.2 !! d_init_path = Some d ∧
    InitEditor_save G gui_load_params init_path d_init_path w1 self1 =
    (gui_load_params
       (w1.1, <[d_init_path := d ++ newline]>
                (<[init_path := c ++ newline]> w1.2)), self1).
Proof.
  unfold InitEditor_load, InitEditor_save, text_get_all. simpl.
  destruct ((gui_save_params w).2 !! init_path) as [c|] eqn:Hc; [| done].
  destruct ((gui_save_params w).2 !! d_init_path) as [d|] eqn:Hd; [| done].
  intros [= <- <-]. exists c, d. simpl. by rewrite !append_nil_r.
Qed.

Lemma InitEditor_load_save_witness :
  (InitEditor_save unit (λ w, w) "init.txt" "d_init.txt"
     (tt, example_files)
     {| init_text := "[SOUND:YES]"; d_init_text := "[AUTOSAVE:NONE]" |}).1.2
    !! "init.txt"
  = Some ("[SOUND:YES]" ++ newline).
Proof.
  destruct (InitEditor_load_save unit (λ w, w) (λ w, w) "init.txt"
              "d_init.txt" (tt, example_files) (tt, example_files)
              {| init_text := "old"; d_init_text := "old" |}
              {| init_text := "[SOUND:YES]";
                 d_init_text := "[AUTOSAVE:NONE]" |} eq_refl)
    as (c & d & _ & Hc & Hd & Hsave).
  rewrite Hsave. vm_compute in Hc. injection Hc as <-. reflexivity.
Defined.

(* ===================================================================== *)
(** * The dialog for the child cap *)

Lemma split_colon_head (s : string) :
  ∃ pieces, split_colon s = split_colon_0 s :: pieces.
Proof.
  induction s as [|c s [pieces IH]]; simpl; [by eexists |].
  destruct (Ascii.eqb c ":"%char); [by eexists |].
  rewrite IH. by eexists.
Qed.

Lemma split_colon_free (s : string) :
  colon_free s = true → split_colon s = [s].
Proof.
  induction s as [|c s IH]; simpl; [done |].
  destruct (Ascii.eqb c ":"%char); simpl; [done |].
  intros Hs. by rewrite IH.
Qed.

Lemma split_colon_app (a b : string) :
  colon_free a = true → split_colon (a ++ ":" ++ b) = a :: split_colon b.
Proof.
  induction a as [|c a IH]; simpl; [done |].
  destruct (Ascii.eqb c ":"%char); simpl; [done |].
  intros Ha. specialize (IH Ha). simpl in IH. by rewrite IH.
Qed.

Lemma colon_free_uint (d : Decimal.uint) :
  colon_free (DecimalString.NilEmpty.string_of_uint d) = true.
Proof. induction d; simpl; done. Qed.

Lemma colon_free_py_str_int (z : Z) : colon_free (py_str_int z) = true.
Proof.
  unfold py_str_int, DecimalString.NilZero.string_of_int,
    DecimalString.NilZero.string_of_uint.
  destruct (Z.to_int z) as [d|d]; destruct d; simpl;
    try done; apply colon_free_uint.
Qed.

Lemma split_colon_tail (s : string) :
  split_colon s =
  split_colon_0 s ::
    match after_colon s with Some rest => split_colon rest | None => [] end.
Proof.
  induction s as [|c s IH]; simpl; [done |].
  destruct (Ascii.eqb c ":"%char); [done |]. by rewrite IH.
Qed.

(** X18.  The dialog for the child cap never fails on the current setting,
    whatever its text.  The first dialog starts from the text before the
    first colon.  When it is cancelled nothing is written; otherwise the
    second dialog starts from the text between the first colon and the next
    one (up to the end, when there is no other), or from "0" when the
    setting has no colon.  When that one is cancelled nothing is written;
    otherwise the two answers are written in decimal, with a colon between
    them. *)
Theorem set_child_cap_initial (askinteger1 askinteger2 : string → option Z)
    (childcap : string) :
  set_child_cap askinteger1 askinteger2 childcap =
  Some (match askinteger1 (split_colon_0 childcap) with
        | None => None
        | Some v =>
            match askinteger2 (match after_colon childcap with
                               | Some rest => split_colon_0 rest
                               | None => "0"
                               end) with
            | None => None
            | Some v2 => Some (py_str_int v ++ ":" ++ py_str_int v2)
            end
        end).
Proof.
  unfold set_child_cap. rewrite (split_colon_tail childcap). simpl.
  destruct (askinteger1 _) as [v|]; [| done].
  destruct (after_colon childcap) as [rest|]; simpl.
  - rewrite (split_colon_tail rest). simpl.
    by destruct (askinteger2 _).
  - by destruct (askinteger2 _).
Qed.

(** The values that the dialogs start from, for three settings. *)
Example set_child_cap_initial_example :
  let shown childcap :=
    set_child_cap (λ initial1, Some (Z.of_nat (String.length initial1)))
                  (λ initial2, Some (Z.of_nat (String.length initial2)))
                  childcap in
  shown "100:1000" = Some (Some "3:4") ∧ shown "100" = Some (Some "3:1") ∧
  shown "100:" = Some (Some "3:0") ∧ shown "10:2000:5" = Some (Some "2:4").
Proof. repeat split; reflexivity. Qed.

(** X19.  A child cap written by the dialog is read back by it: from the
    setting written for the answers [v] and [v2], the two dialogs start from
    the decimal texts of [v] and [v2], and the answers given then are
    written in the same form. *)
Theorem set_child_cap_round_trip (askinteger1 askinteger2 : string → option Z)
    (v v2 v' v2' : Z) :
  askinteger1 (py_str_int v) = Some v' →
  askinteger2 (py_str_int v2) = Some v2' →
  (split_colon (py_str_int v ++ ":" ++ py_str_int v2) ++ ["0"])%list
    = [py_str_int v; py_str_int v2; "0"] ∧
  set_child_cap askinteger1 askinteger2 (py_str_int v ++ ":" ++ py_str_int v2)
    = Some (Some (py_str_int v' ++ ":" ++ py_str_int v2')).
Proof.
  intros H1 H2.
  assert (split_colon (py_str_int v ++ ":" ++ py_str_int v2)
          = [py_str_int v; py_str_int v2]) as Hsplit.
  { rewrite split_colon_app by apply colon_free_py_str_int.
    by rewrite split_colon_free by apply colon_free_py_str_int. }
  split; [by rewrite Hsplit |].
  unfold set_child_cap. rewrite Hsplit. simpl. rewrite H1. simpl.
  by rewrite H2.
Qed.

Lemma set_child_cap_round_trip_witness :
  set_child_cap (λ _, Some 100%Z) (λ _, Some 1000%Z) "50:500"
    = Some (Some "100:1000").
Proof.
  exact (proj2 (set_child_cap_round_trip (λ _, Some 100%Z) (λ _, Some 1000%Z)
                  50 500 100 1000 eq_refl eq_refl)).
Defined.

(* ===================================================================== *)
(** * One appearance of a tooltip *)

(** X20.  When the pointer enters the widget of a tooltip that has a text and
    is not shown, and the timer scheduled by that comes due, the tooltip
    appears with its text 16 pixels right of and below the place where the
    pointer is when the timer comes due, not where it entered; leaving the
    widget then destroys exactly that window and leaves no timer. *)
Theorem tooltip_show_hide (k : Tk) (text0 : string) (es : list tip_event)
    (x y : Z) :
  let s := tip_run (create_tooltip k text0) es in
  tipwindow (tooltip s) = None →
  text (tooltip s) ≠ "" →
  let s2 := tip_run s [PointerEnter; PointerMotion x y;
                       TimerDue (after_count (tk s))] in
  tipwindow (tooltip s2) =
    Some {| tw_id := toplevel_count (tk s); tw_x := x + 16; tw_y := y + 16;
            tw_text := text (tooltip s) |} ∧
  tipwindow (tooltip (leave s2)) = None ∧
  destroyed (tk (leave s2)) = toplevel_count (tk s) :: destroyed (tk s) ∧
  after_queue (tk (leave s2)) = [].
Proof.
  intros s Hwin Htext s2.
  assert (timers_ok s) as Hok by (by apply tip_run_timers_ok).
  assert (timers_ok s2) as Hok2 by (by apply (tip_run_timers_ok s)).
  assert (s2 = timer_due (after_count (tk s))
                 (pointer_motion x y (enter s))) as Hs2def by reflexivity.
  clearbody s2. clearbody s.
  destruct (enter_queue s Hok) as [Hq He].
  assert (tooltip (enter s) = set_event (Some (after_count (tk s))) (tooltip s)
          ∧ toplevel_count (tk (enter s)) = toplevel_count (tk s)
          ∧ destroyed (tk (enter s)) = destroyed (tk s)) as (Ht & Hc & Hd).
  { unfold enter, after. by destruct (event (tooltip s)). }
  apply text_eqb_empty in Htext.
  remember (enter s) as s1 eqn:Hs1. clear Hs1.
  assert (tipwindow (tooltip s2) =
    Some {| tw_id := toplevel_count (tk s); tw_x := x + 16; tw_y := y + 16;
            tw_text := text (tooltip s) |} ∧
    destroyed (tk s2) = destroyed (tk s)) as [Hs2 Hd2].
  { rewrite Hs2def. unfold timer_due, pointer_motion. simpl.
    rewrite Hq. simpl.
    rewrite bool_decide_eq_true_2 by apply list_elem_of_here.
    unfold ToolTipM.showtip. simpl. rewrite Ht. simpl.
    by rewrite Hwin, Htext, Hc, Hd. }
  split; [exact Hs2 |].
  split; [| split; [| by apply leave_queue]].
  - unfold leave. destruct (event (tooltip s2)); unfold ToolTipM.hidetip;
      simpl; by destruct (tipwindow (tooltip s2)).
  - unfold leave.
    destruct (event (tooltip s2)); unfold ToolTipM.hidetip; simpl;
      rewrite Hs2; simpl; by rewrite Hd2.
Qed.

Lemma tooltip_show_hide_witness :
  anchor (tip_run (create_tooltip example_tk "Play the game!")
            [PointerEnter; PointerMotion 100 200; TimerDue 0])
  = Some (116, 216)%Z.
Proof.
  pose proof (tooltip_show_hide example_tk "Play the game!" [] 100 200
                eq_refl ltac:(discriminate)) as [Hshown _].
  unfold anchor.
  change (tip_run (create_tooltip example_tk "Play the game!")
            [PointerEnter; PointerMotion 100 200; TimerDue 0])
    with (tip_run (tip_run (create_tooltip example_tk "Play the game!") [])
            [PointerEnter; PointerMotion 100 200;
             TimerDue (after_count
               (tk (tip_run (create_tooltip example_tk "Play the game!")
                      [])))]).
  rewrite Hshown. reflexivity.
Defined.
